(** * Kick Presence: the configuration store, the logging bootstrap and main

    A shallow embedding of [kick_presence/config.py],
    [kick_presence/logging_config.py] and [kick_presence/main.py].

    - Python values are a tagged union; a [dict] is an association list in
      insertion order with first-match lookup, which is the order
      [dict.items()] iterates in and [json.dump] writes in.
    - Methods run in a state-and-exception monad: the state carries the
      object under construction ([self]), the file system and the console;
      a raised exception keeps the mutations made before it.
    - [json.load] and [json.dump] belong to the Python standard library; the
      configuration store is parameterised by a codec and its round-trip law,
      and [RefJson] is a reference codec that satisfies it. *)

From stdpp Require Import gmap strings list.
From Stdlib Require Import ZArith Ascii String DecimalString DecimalZ.
Open Scope string_scope.
Open Scope list_scope.

(** ** Python values and exceptions *)

Module Py.

(** The JSON-serialisable Python values.  [float] is left out: no default
    of the schema is a float and no claim depends on one. *)
#[warnings="-register-all"]
Inductive value :=
| VNone
| VBool (b : bool)
| VInt (n : Z)
| VStr (s : string)
| VList (l : list value)
| VDict (d : list (string * value)).

Abbreviation dict := (list (string * value)).

Inductive exn :=
| TypeError
| KeyError (key : string)
| AttributeError (attr : string)
| OSError (msg : string)
| ValueError (msg : string)
| JSONDecodeError
| UnicodeDecodeError.

Inductive result (A : Type) :=
| Ok (a : A)
| Raise (e : exn).
Arguments Ok {A} a.
Arguments Raise {A} e.

Definition rbind {A B} (r : result A) (k : A -> result B) : result B :=
  match r with
  | Ok a => k a
  | Raise e => Raise e
  end.

(** [str(e)] as it appears in an f-string.  The text of a decode error is
    the library's and depends on where the parser stopped; one
    representative text stands for all of them. *)
Definition exn_msg (e : exn) : string :=
  match e with
  | TypeError => "TypeError"
  | KeyError key => "'" +:+ key +:+ "'"
  | AttributeError attr => "object has no attribute '" +:+ attr +:+ "'"
  | OSError msg => msg
  | ValueError msg => msg
  | JSONDecodeError => "Expecting value"
  | UnicodeDecodeError => "'utf-8' codec can't decode byte"
  end.

(** Truth value of an object, as [x or y] tests it. *)
Definition truthy (v : value) : bool :=
  match v with
  | VNone => false
  | VBool b => b
  | VInt n => negb (n =? 0)%Z
  | VStr s => negb (String.eqb s "")
  | VList l => match l with [] => false | _ => true end
  | VDict d => match d with [] => false | _ => true end
  end.

(** [x or y] *)
Definition py_or (x y : value) : value := if truthy x then x else y.

Definition isinstance_dict (v : value) : bool :=
  match v with VDict _ => true | _ => false end.

(** *** dict: lookup, membership, item assignment *)

Fixpoint dict_get (k : string) (d : dict) : option value :=
  match d with
  | [] => None
  | (k', v) :: d' => if String.eqb k k' then Some v else dict_get k d'
  end.

Definition dict_mem (k : string) (d : dict) : bool :=
  match dict_get k d with Some _ => true | None => false end.

(** [d[k] = v]: an existing key keeps its position, a new key goes last. *)
Fixpoint dict_set (k : string) (v : value) (d : dict) : dict :=
  match d with
  | [] => [(k, v)]
  | (k', v') :: d' =>
      if String.eqb k k' then (k', v) :: d' else (k', v') :: dict_set k v d'
  end.

(** *** The three operators the store applies to a node of unknown type *)

(** [k in c] for a string [k]: key membership on a dict, substring test on a
    string, element equality on a list, [TypeError] elsewhere. *)
Definition py_in (k : string) (c : value) : result bool :=
  match c with
  | VDict d => Ok (dict_mem k d)
  | VStr s => Ok (match String.index 0 k s with Some _ => true | None => false end)
  | VList l =>
      Ok (existsb (fun x => match x with VStr s => String.eqb k s | _ => false end) l)
  | _ => Raise TypeError
  end.

(** [c[k]] for a string [k]: only a dict accepts a string subscript. *)
Definition py_getitem (c : value) (k : string) : result value :=
  match c with
  | VDict d => match dict_get k d with Some v => Ok v | None => Raise (KeyError k) end
  | _ => Raise TypeError
  end.

(** [c[k] = v] for a string [k]: only a dict accepts it. *)
Definition py_setitem (c : value) (k : string) (v : value) : result value :=
  match c with
  | VDict d => Ok (VDict (dict_set k v d))
  | _ => Raise TypeError
  end.

(** [s.split(".")]: never empty, an empty string gives one empty segment. *)
Fixpoint split_dot (s : string) : list string :=
  match s with
  | EmptyString => [EmptyString]
  | String c s' =>
      if Ascii.eqb c "." then EmptyString :: split_dot s'
      else match split_dot s' with
           | h :: t => String c h :: t
           | [] => [String c EmptyString]
           end
  end.

(** No key is repeated in any dict of the value: what every Python object
    satisfies and the association list does not enforce. *)
Fixpoint wfb (v : value) : bool :=
  match v with
  | VList l => forallb wfb l
  | VDict d =>
      bool_decide (NoDup (map fst d)) && forallb (fun '(_, x) => wfb x) d
  | _ => true
  end.

Definition wf (v : value) : Prop := wfb v = true.

End Py.
Import Py.

(** ** State and exceptions *)

Section Monad.
Context {S : Type}.

Definition M (A : Type) : Type := S -> result A * S.

Definition ret {A} (a : A) : M A := fun s => (Ok a, s).

Definition bind {A B} (m : M A) (k : A -> M B) : M B :=
fun s => match m s with
 | (Ok a, s') => k a s'
 | (Raise e, s') => (Raise e, s')
 end.

Definition raise {A} (e : exn) : M A := fun s => (Raise e, s).

Definition lift {A} (r : result A) : M A := fun s => (r, s).

Definition gets {A} (f : S -> A) : M A := fun s => (Ok (f s), s).

Definition modify (f : S -> S) : M unit := fun s => (Ok tt, f s).

(** [try: m / except <the exceptions h accepts> as e: h e] *)
Definition try_except {A} (m : M A) (h : exn -> option (M A)) : M A :=
fun s => match m s with
 | (Ok a, s') => (Ok a, s')
 | (Raise e, s') =>
 match h e with
 | Some k => k s'
 | None => (Raise e, s')
 end
 end.
End Monad.
Arguments M : clear implicits.

Notation "'let*' x := m 'in' k" := (bind m (fun x => k))
  (at level 10, x pattern, m at level 100, k at level 200).

(** ** The file system *)

Module Os.

(** Files hold text.  [unreadable] is the set of paths at which opening for
    reading fails, [unwritable] the set of paths at which a write fails
    (permissions, a missing parent directory, a read-only medium, a full
    device).  For an unwritable path [partial] says how the write fails:
    with no entry the file cannot be opened and nothing changes; with an
    entry [n] the file is opened, which empties it, and the device gives
    out after [n] characters at most.  [undecodable] is the set of files
    whose bytes are not valid UTF-8: for them [files] holds no text a
    reader gets to see. *)
Record filesystem := {
  files : gmap string string;
  dirs : gset string;
  unreadable : gset string;
  unwritable : gset string;
  partial : gmap string nat;
  undecodable : gset string;
}.

Definition with_files (f : gmap string string) (fs : filesystem) : filesystem :=
  {| files := f; dirs := dirs fs;
     unreadable := unreadable fs; unwritable := unwritable fs;
     partial := partial fs; undecodable := undecodable fs |}.

Definition with_dirs (d : gset string) (fs : filesystem) : filesystem :=
  {| files := files fs; dirs := d;
     unreadable := unreadable fs; unwritable := unwritable fs;
     partial := partial fs; undecodable := undecodable fs |}.

(** The file at [p] after text has been written to it: it holds the text,
    which is valid UTF-8. *)
Definition write_file (p text : string) (fs : filesystem) : filesystem :=
  {| files := <[p := text]> (files fs); dirs := dirs fs;
     unreadable := unreadable fs; unwritable := unwritable fs;
     partial := partial fs; undecodable := undecodable fs ∖ {[p]} |}.

(** A path with a NUL character is no path: [open] and [mkdir] refuse it
    with [ValueError], which is no [OSError], before the file system is
    looked at, and [os.path.exists] answers [False].  The calls below are
    described at paths without NUL; the statements that cover every outcome
    of a write or of the log-file setup say so in a hypothesis. *)
Fixpoint has_nul (p : string) : bool :=
  match p with
  | EmptyString => false
  | String c p' => Ascii.eqb c "000" || has_nul p'
  end.

(** [p.split("/")] *)
Fixpoint split_slash (p : string) : list string :=
  match p with
  | EmptyString => [EmptyString]
  | String c p' =>
      if Ascii.eqb c "/" then EmptyString :: split_slash p'
      else match split_slash p' with
           | h :: t => String c h :: t
           | [] => [String c EmptyString]
           end
  end.

(** An absolute path in the form [pathlib] and [os.path.abspath] leave as it
    is: it starts at the root, has no NUL, and each of its components is a
    name (not empty, so no doubled or trailing slash, and neither ["."] nor
    [".."]).  For such a path [Path(p)] is [p], [Path(p).parent] is the text
    before the last slash, and [os.path.abspath(p)] is [p]. *)
Definition normalised (p : string) : bool :=
  match p with
  | String c rest =>
      Ascii.eqb c "/" && negb (has_nul rest) &&
      forallb (fun name => negb (String.eqb name "") && negb (String.eqb name ".")
                           && negb (String.eqb name ".."))
              (split_slash rest)
  | EmptyString => false
  end.

(** [os.path.exists(p)] *)
Definition path_exists (p : string) (fs : filesystem) : bool :=
  bool_decide (is_Some (files fs !! p)) || bool_decide (p ∈ dirs fs).

(** [open(p, encoding="utf-8")] followed by reading the whole file: the
    bytes are decoded on the way, and bytes that are not UTF-8 raise
    [UnicodeDecodeError], which is a [ValueError] and no [OSError]. *)
Definition read_text (p : string) (fs : filesystem) : result string :=
  if bool_decide (p ∈ unreadable fs) then
    Raise (OSError ("[Errno 13] Permission denied: '" +:+ p +:+ "'"))
  else if bool_decide (p ∈ dirs fs) then
    Raise (OSError ("[Errno 21] Is a directory: '" +:+ p +:+ "'"))
  else match files fs !! p with
       | Some text =>
           if bool_decide (p ∈ undecodable fs) then Raise UnicodeDecodeError
           else Ok text
       | None => Raise (OSError ("[Errno 2] No such file or directory: '" +:+ p +:+ "'"))
       end.

(** [open(p, "w", encoding="utf-8")] followed by writing [text].  Opening
    creates or empties the file, so a write that fails after the file was
    opened leaves the beginning of the text behind; the result carries the
    file system also when it raises. *)
Definition write_text (p text : string) (fs : filesystem)
  : result unit * filesystem :=
  if bool_decide (p ∈ dirs fs) then
    (Raise (OSError ("[Errno 21] Is a directory: '" +:+ p +:+ "'")), fs)
  else if bool_decide (p ∈ unwritable fs) then
    match partial fs !! p with
    | None => (Raise (OSError ("[Errno 13] Permission denied: '" +:+ p +:+ "'")), fs)
    | Some n =>
        (Raise (OSError "[Errno 28] No space left on device"),
         write_file p (substring 0 n text) fs)
    end
  else (Ok tt, write_file p text fs).

(** [Path(p).mkdir(exist_ok=True)] *)
Definition mkdir_exist_ok (p : string) (fs : filesystem) : result filesystem :=
  if bool_decide (p ∈ dirs fs) then Ok fs
  else if bool_decide (is_Some (files fs !! p)) then
    Raise (OSError ("[Errno 17] File exists: '" +:+ p +:+ "'"))
  else if bool_decide (p ∈ unwritable fs) then
    Raise (OSError ("[Errno 13] Permission denied: '" +:+ p +:+ "'"))
  else Ok (with_dirs ({[p]} ∪ dirs fs) fs).

(** [a / b] for a normalised absolute [a] and a relative name [b]. *)
Definition path_join (a b : string) : string :=
  if String.eqb a "/" then a +:+ b else a +:+ "/" +:+ b.

(** The text before the last ["/"] of a path, if it has one. *)
Fixpoint before_last_slash (s : string) : option string :=
  match s with
  | EmptyString => None
  | String c s' =>
      match before_last_slash s' with
      | Some d => Some (String c d)
      | None => if Ascii.eqb c "/" then Some EmptyString else None
      end
  end.

(** [Path(p).parent] for a normalised path: ["a/b/c"] gives ["a/b"], a bare
    name gives ["."], a name under the root gives ["/"]; ["."] and ["/"] are
    their own parents. *)
Definition path_parent (p : string) : string :=
  match before_last_slash p with
  | None => "."
  | Some EmptyString => "/"
  | Some d => d
  end.

(** The number of [parent] steps a path can take at most. *)
Definition path_rank (p : string) : nat :=
  if String.eqb p "." || String.eqb p "/" then 0 else S (String.length p).

(** [Path(p).mkdir(exist_ok=True)] as the last step of making a path with
    its parents: a failure leaves the disk as it is. *)
Definition mkdir_last (p : string) (fs : filesystem) : result unit * filesystem :=
  match mkdir_exist_ok p fs with
  | Ok fs' => (Ok tt, fs')
  | Raise e => (Raise e, fs)
  end.

Definition enoent (p : string) : exn :=
  OSError ("[Errno 2] No such file or directory: '" +:+ p +:+ "'").

(** [Path(p).mkdir(parents=True, exist_ok=True)].  [os.mkdir] is tried
    first; when the parent is missing the parent is made the same way and
    then [p] with [exist_ok=True].  The directories made before a failure
    stay, so the result carries the file system also when it raises. *)
Fixpoint mkdir_parents (fuel : nat) (p : string) (fs : filesystem)
  : result unit * filesystem :=
  if bool_decide (p ∈ dirs fs) then (Ok tt, fs)
  else if bool_decide (is_Some (files fs !! p)) then
    (Raise (OSError ("[Errno 17] File exists: '" +:+ p +:+ "'")), fs)
  else if bool_decide (path_parent p ∈ dirs fs) then mkdir_last p fs
  else if String.eqb (path_parent p) p then (Raise (enoent p), fs)
  else match fuel with
       | 0 => (Raise (enoent p), fs)
       | S fuel' =>
           match mkdir_parents fuel' (path_parent p) fs with
           | (Ok _, fs1) => mkdir_last p fs1
           | (Raise e, fs1) => (Raise e, fs1)
           end
       end.

(** [open(p, "a", encoding="utf-8")]: the file is created empty when it is
    missing and keeps its text otherwise. *)
Definition open_append (p : string) (fs : filesystem) : result filesystem :=
  if bool_decide (p ∈ unwritable fs) then
    Raise (OSError ("[Errno 13] Permission denied: '" +:+ p +:+ "'"))
  else if bool_decide (p ∈ dirs fs) then
    Raise (OSError ("[Errno 21] Is a directory: '" +:+ p +:+ "'"))
  else match files fs !! p with
       | Some _ => Ok fs
       | None => Ok (with_files (<[p := ""]> (files fs)) fs)
       end.

End Os.
Import Os.

(** ** config.py: class Config *)

Module Config.

(** The attributes of an instance; [None] is an attribute not assigned yet. *)
Record obj := {
  config_path : option string;
  config_data : option value;
}.

(** What a method can see and change: the instance, the disk, the console,
    and the home directory [Path.home()] answers. *)
Record state := {
  self : obj;
  fs : filesystem;
  stdout : list string;
  home : string;
}.

Definition with_self (o : obj) (s : state) : state :=
  {| self := o; fs := fs s; stdout := stdout s; home := home s |}.

Definition with_fs (f : filesystem) (s : state) : state :=
  {| self := self s; fs := f; stdout := stdout s; home := home s |}.

Definition with_stdout (out : list string) (s : state) : state :=
  {| self := self s; fs := fs s; stdout := out; home := home s |}.

(** [print(line)] *)
Definition print (line : string) : M state unit :=
  modify (fun s => with_stdout (stdout s ++ [line]) s).

(** [self.config_path] and [self.config_data], read and assigned. *)
Definition self_config_path : M state string :=
  fun s => match config_path (self s) with
           | Some p => (Ok p, s)
           | None => (Raise (AttributeError "config_path"), s)
           end.

Definition self_config_data : M state value :=
  fun s => match config_data (self s) with
           | Some d => (Ok d, s)
           | None => (Raise (AttributeError "config_data"), s)
           end.

Definition assign_config_path (p : string) : M state unit :=
  modify (fun s => with_self {| config_path := Some p;
                                config_data := config_data (self s) |} s).

Definition assign_config_data (d : value) : M state unit :=
  modify (fun s => with_self {| config_path := config_path (self s);
                                config_data := Some d |} s).

(** File-system calls lifted to methods. *)
Definition os_path_exists (p : string) : M state bool :=
  gets (fun s => path_exists p (fs s)).

Definition os_read_text (p : string) : M state string :=
  fun s => (read_text p (fs s), s).

Definition os_write_text (p text : string) : M state unit :=
  fun s => let '(r, fs') := write_text p text (fs s) in (r, with_fs fs' s).

Definition os_mkdir_exist_ok (p : string) : M state unit :=
  fun s => match mkdir_exist_ok p (fs s) with
           | Ok fs' => (Ok tt, with_fs fs' s)
           | Raise e => (Raise e, s)
           end.

(** The [default_config] literal of [_load_config]. *)
Definition default_config : dict :=
  [ ("kick", VDict [ ("username", VStr "");
                     ("check_interval", VInt 30);
                     ("enable_notifications", VBool true) ]);
    ("discord", VDict [ ("client_id", VStr "");
                        ("enable_rich_presence", VBool true) ]);
    ("gui", VDict [ ("theme", VStr "dark");
                    ("start_minimized", VBool false);
                    ("minimize_to_tray", VBool true) ]);
    ("logging", VDict [ ("level", VStr "INFO"); ("file", VNone) ]) ].

(** The inner loop of the merge,
    [for sub_key, sub_value in value.items():
       if sub_key not in loaded_config[key]:
         loaded_config[key][sub_key] = sub_value],
    on the section [section = loaded_config[key]], a dict. *)
Definition merge_section (value section : dict) : dict :=
  fold_left
    (fun sec '(sub_key, sub_value) =>
       if dict_mem sub_key sec then sec else dict_set sub_key sub_value sec)
    value section.

(** One round of the outer loop, for the default item [(key, value)].
    [loaded_config] is whatever [json.load] returned: the operators raise
    when it is not a dict. *)
Definition merge_step (loaded_config : value) (item : string * value)
  : result value :=
  let '(key, value) := item in
  rbind (py_in key loaded_config) (fun present =>
  if negb present then py_setitem loaded_config key value
  else
    match value with
    | VDict dv =>
        rbind (py_getitem loaded_config key) (fun cur =>
        match cur with
        | VDict dc => py_setitem loaded_config key (VDict (merge_section dv dc))
        | _ => Ok loaded_config
        end)
    | _ => Ok loaded_config
    end).

(** [for key, value in default_config.items(): ...] *)
Fixpoint merge_loop (items : dict) (loaded_config : value) : result value :=
  match items with
  | [] => Ok loaded_config
  | item :: items' =>
      rbind (merge_step loaded_config item) (merge_loop items')
  end.

(** The loop of [get]: descend while the node is a dict that has the
    segment, return [default] at the first segment that is not found. *)
Fixpoint get_loop (keys : list string) (value default : Py.value) : Py.value :=
  match keys with
  | [] => value
  | k :: keys' =>
      match value with
      | VDict d =>
          match dict_get k d with
          | Some v => get_loop keys' v default
          | None => default
          end
      | _ => default
      end
  end.

(** The loop of [set] over [keys[:-1]] and the final assignment at
    [keys[-1]], run on the node [config].  The node is mutated in place, so
    the result pairs the outcome with the node as it is afterwards, also
    when an exception is raised.

    The document is a tree of values here: a mapping sits in one place of
    it.  That is what a document is that the store loaded or created and
    that was changed through [set] with values that are not containers.  A
    mapping that the caller passes to [set] and keeps, or fetches with [get]
    and sets at a second key, is one object in two places, and a later [set]
    through one of them shows through the other; the statements about what
    [set] leaves alone and about what a saved document reads back as are
    made for the documents of the first kind. *)
Fixpoint set_loop (init : list string) (last : string) (v : value)
    (config : value) : result unit * value :=
  match init with
  | [] =>
      match py_setitem config last v with
      | Ok config' => (Ok tt, config')
      | Raise e => (Raise e, config)
      end
  | k :: init' =>
      match py_in k config with
      | Raise e => (Raise e, config)
      | Ok present =>
          match (if present then Ok config else py_setitem config k (VDict [])) with
          | Raise e => (Raise e, config)
          | Ok config1 =>
              match py_getitem config1 k with
              | Raise e => (Raise e, config1)
              | Ok child =>
                  let '(r, child') := set_loop init' last v child in
                  (r, match py_setitem config1 k child' with
                      | Ok config2 => config2
                      | Raise _ => config1
                      end)
              end
          end
      end
  end.

(** [get(key, default)] *)
Definition get (key : string) (default : value) : M state value :=
  let keys := split_dot key in
  let* value := self_config_data in
  ret (get_loop keys value default).

(** [set(key, value)] *)
Definition set (key : string) (value : value) : M state unit :=
  let keys := split_dot key in
  let* config := self_config_data in
  let '(r, config') := set_loop (removelast keys) (List.last keys "") value config in
  let* _ := assign_config_data config' in
  lift r.

Section Codec.
(** [json.dumps(v, indent=2)] and [json.loads(text)]; [None] is a
[JSONDecodeError], the one error of the parser that [_load_config]
handles. *)
Variable json_dumps : value -> string.
Variable json_loads : string -> option value.

(** [save_config(config_data)]; the default argument is [VNone]. *)
Definition save_config (config_data : value) : M state unit :=
let* data_to_save :=
(if truthy config_data then ret config_data else self_config_data) in
try_except
(let* p := self_config_path in
 os_write_text p (json_dumps data_to_save))
(fun e =>
 match e with
 | OSError _ =>
 Some (let* p := self_config_path in
 print ("Error saving config to " +:+ p +:+ ": " +:+ exn_msg e))
 | _ => None
 end).

(** [_load_config()] *)
Definition _load_config : M state value :=
let* p := self_config_path in
let* found := os_path_exists p in
if found then
try_except
(let* text := os_read_text p in
 let* loaded_config :=
 lift (match json_loads text with
 | Some v => Ok v
 | None => Raise JSONDecodeError
 end) in
 lift (merge_loop default_config loaded_config))
(fun e =>
 match e with
 | OSError _ | JSONDecodeError =>
 Some (let* p := self_config_path in
   let* _ := print ("Error loading config from " +:+ p
                    +:+ ": " +:+ exn_msg e) in
   ret (VDict default_config))
 | _ => None
 end)
else
let* _ := save_config (VDict default_config) in
ret (VDict default_config).

(** [_get_default_config_path()] *)
Definition _get_default_config_path : M state string :=
let* home_dir := gets home in
let config_dir := path_join home_dir ".kick_presence" in
let* _ := os_mkdir_exist_ok config_dir in
ret (path_join config_dir "config.json").

(** [__init__(config_path)]; [None] is the omitted argument. *)
Definition __init__ (config_path : option string) : M state unit :=
let* p :=
match config_path with
| Some p => if truthy (VStr p) then ret p else _get_default_config_path
| None => _get_default_config_path
end in
let* _ := assign_config_path p in
let* d := _load_config in
assign_config_data d.

(** [Config(config_path)]: a new instance, then [__init__] on it. *)
Definition new (config_path : option string) : M state unit :=
let* _ := modify (with_self {| config_path := None; config_data := None |}) in
__init__ config_path.

(** [__str__()] *)
Definition __str__ : M state string :=
let* d := self_config_data in
ret (json_dumps d).
End Codec.

End Config.

(** ** logging_config.py *)

Module Logging.

(** A handler object.  [h_id] is its identity: [addHandler] and
    [removeHandler] compare handlers with [in], which for handlers is
    identity. *)
Inductive sink :=
| Console                      (* StreamHandler(sys.stdout) *)
| LogFile (path : string).     (* FileHandler(path, encoding="utf-8") *)

Record handler := {
  h_id : nat;
  h_sink : sink;
  h_level : Z;
  h_formatter : option string;
}.

(** The process-wide logging state, the disk, the console and the
    environment variables. *)
Record state := {
  root_level : Z;
  root_handlers : list handler;
  logger_levels : gmap string Z;
  next_id : nat;
  fs : filesystem;
  stdout : list string;
  environ : gmap string string;
}.

Definition with_root_level (n : Z) (s : state) : state :=
  {| root_level := n; root_handlers := root_handlers s;
     logger_levels := logger_levels s; next_id := next_id s;
     fs := fs s; stdout := stdout s; environ := environ s |}.

Definition with_root_handlers (hs : list handler) (s : state) : state :=
  {| root_level := root_level s; root_handlers := hs;
     logger_levels := logger_levels s; next_id := next_id s;
     fs := fs s; stdout := stdout s; environ := environ s |}.

Definition with_logger_levels (m : gmap string Z) (s : state) : state :=
  {| root_level := root_level s; root_handlers := root_handlers s;
     logger_levels := m; next_id := next_id s;
     fs := fs s; stdout := stdout s; environ := environ s |}.

Definition with_next_id (n : nat) (s : state) : state :=
  {| root_level := root_level s; root_handlers := root_handlers s;
     logger_levels := logger_levels s; next_id := n;
     fs := fs s; stdout := stdout s; environ := environ s |}.

Definition with_fs (f : filesystem) (s : state) : state :=
  {| root_level := root_level s; root_handlers := root_handlers s;
     logger_levels := logger_levels s; next_id := next_id s;
     fs := f; stdout := stdout s; environ := environ s |}.

Definition with_stdout (out : list string) (s : state) : state :=
  {| root_level := root_level s; root_handlers := root_handlers s;
     logger_levels := logger_levels s; next_id := next_id s;
     fs := fs s; stdout := out; environ := environ s |}.

Definition print (line : string) : M state unit :=
  modify (fun s => with_stdout (stdout s ++ [line]) s).

(** The level constants of the [logging] module. *)
Definition WARNING : Z := 30.
Definition INFO : Z := 20.

(** [getattr(logging, name, None)] when the attribute is an [int], [None]
    otherwise: the level constants, and the module's boolean switches,
    which are instances of [int] with value 1. *)
Definition logging_int_attr (name : string) : option Z :=
  if String.eqb name "CRITICAL" then Some 50%Z
  else if String.eqb name "FATAL" then Some 50%Z
  else if String.eqb name "ERROR" then Some 40%Z
  else if String.eqb name "WARNING" then Some WARNING
  else if String.eqb name "WARN" then Some WARNING
  else if String.eqb name "INFO" then Some INFO
  else if String.eqb name "DEBUG" then Some 10%Z
  else if String.eqb name "NOTSET" then Some 0%Z
  else if String.eqb name "raiseExceptions" then Some 1%Z
  else if String.eqb name "logThreads" then Some 1%Z
  else if String.eqb name "logMultiprocessing" then Some 1%Z
  else if String.eqb name "logProcesses" then Some 1%Z
  else None.

(** [s.upper()] on ASCII letters. *)
Definition upper_ascii (c : ascii) : ascii :=
  let n := nat_of_ascii c in
  if (97 <=? n)%nat && (n <=? 122)%nat then ascii_of_nat (n - 32) else c.

Fixpoint upper (s : string) : string :=
  match s with
  | EmptyString => EmptyString
  | String c s' => String (upper_ascii c) (upper s')
  end.

(** [handler in handlers] *)
Definition handler_in (h : handler) (hs : list handler) : bool :=
  existsb (fun h' => Nat.eqb (h_id h) (h_id h')) hs.

(** [handlers.remove(h)]: the first occurrence goes. *)
Fixpoint list_remove (h : handler) (hs : list handler) : list handler :=
  match hs with
  | [] => []
  | h' :: hs' => if Nat.eqb (h_id h) (h_id h') then hs' else h' :: list_remove h hs'
  end.

(** [root_logger.removeHandler(h)] *)
Definition removeHandler (h : handler) : M state unit :=
  modify (fun s =>
    if handler_in h (root_handlers s)
    then with_root_handlers (list_remove h (root_handlers s)) s
    else s).

(** [root_logger.addHandler(h)] *)
Definition addHandler (h : handler) : M state unit :=
  modify (fun s =>
    if handler_in h (root_handlers s) then s
    else with_root_handlers (root_handlers s ++ [h]) s).

(** A new handler object: level [NOTSET], no formatter. *)
Definition new_handler (k : sink) : M state handler :=
  fun s => (Ok {| h_id := next_id s; h_sink := k; h_level := 0; h_formatter := None |},
            with_next_id (S (next_id s)) s).

Definition handler_setLevel (n : Z) (h : handler) : handler :=
  {| h_id := h_id h; h_sink := h_sink h; h_level := n; h_formatter := h_formatter h |}.

Definition handler_setFormatter (f : string) (h : handler) : handler :=
  {| h_id := h_id h; h_sink := h_sink h; h_level := h_level h; h_formatter := Some f |}.

(** [for x in xs: body x] *)
Fixpoint for_each {A} (xs : list A) (body : A -> M state unit) : M state unit :=
  match xs with
  | [] => ret tt
  | x :: xs' => let* _ := body x in for_each xs' body
  end.

(** [logging.getLogger(name).setLevel(n)] *)
Definition logger_setLevel (name : string) (n : Z) : M state unit :=
  modify (fun s => with_logger_levels (<[name := n]> (logger_levels s)) s).

Definition os_mkdir_parents (p : string) : M state unit :=
  fun s => let '(r, fs') := mkdir_parents (path_rank p) p (fs s) in (r, with_fs fs' s).

Definition os_open_append (p : string) : M state unit :=
  fun s => match open_append p (fs s) with
           | Ok fs' => (Ok tt, with_fs fs' s)
           | Raise e => (Raise e, s)
           end.

Definition default_format : string :=
  "%(asctime)s - %(name)s - %(levelname)s - %(message)s".

Section Formatter.
(** Whether [logging.Formatter] accepts a template: it raises
[ValueError] for a template without a [%(name)s] field. *)
Variable valid_format : string -> bool.

(** [logging.Formatter(format_string)] *)
Definition Formatter (format_string : string) : M state string :=
if valid_format format_string then ret format_string
else raise (ValueError ("Invalid format '" +:+ format_string +:+ "' for '%' style")).

(** [setup_logging(level, log_file, format_string)]; [None] is an omitted
argument. *)
Definition setup_logging (level log_file format_string : option string)
: M state unit :=
let* log_level :=
(let from_env :=
 gets (fun s => upper (default "INFO" (environ s !! "KICK_PRESENCE_LOG_LEVEL"))) in
 match level with
 | Some l => if truthy (VStr l) then ret l else from_env
 | None => from_env
 end) in
let* numeric_level :=
(match logging_int_attr log_level with
 | Some n => ret n
 | None =>
 let* _ := print ("Invalid log level: " +:+ log_level +:+ ". Using INFO.") in
 ret INFO
 end) in
let format_string := default default_format format_string in
let* formatter := Formatter format_string in
let* _ := modify (with_root_level numeric_level) in
let* handlers := gets root_handlers in
let* _ := for_each handlers removeHandler in
let* console_handler := new_handler Console in
let console_handler := handler_setLevel numeric_level console_handler in
let console_handler := handler_setFormatter formatter console_handler in
let* _ := addHandler console_handler in
let* _ :=
(match log_file with
 | Some path =>
 if truthy (VStr path) then
 try_except
 (let* _ := os_mkdir_parents (path_parent path) in
let* _ := os_open_append path in
let* file_handler := new_handler (LogFile path) in
let file_handler := handler_setLevel numeric_level file_handler in
let file_handler := handler_setFormatter formatter file_handler in
addHandler file_handler)
 (fun e =>
match e with
| OSError _ =>
    Some (print ("Warning: Could not create log file " +:+ path
                 +:+ ": " +:+ exn_msg e))
| _ => None
end)
 else ret tt
 | None => ret tt
 end) in
let* _ := logger_setLevel "urllib3" WARNING in
let* _ := logger_setLevel "requests" WARNING in
logger_setLevel "discord" WARNING.
End Formatter.

(** The sink configuration: what each installed handler writes to, at which
    level and in which format, in order. *)
Definition sink_config (s : state) : list (sink * Z * option string) :=
  map (fun h => (h_sink h, h_level h, h_formatter h)) (root_handlers s).

End Logging.

(** ** main.py *)

Module Main.
Import Logging.

(** What [main] runs in: the logging state of the process (with the disk,
    the console and the environment), the instance bound to [config], the
    home directory, and the clock that stamps log records. *)
Record state := {
  logging : Logging.state;
  config : Config.obj;
  home : string;
  clock : nat;
}.

(** A step of [logging_config.py] inside the program. *)
Definition in_logging {A} (m : M Logging.state A) : M state A :=
  fun s =>
    let '(r, l) := m (logging s) in
    (r, {| logging := l; config := config s; home := home s; clock := clock s |}).

(** A method of the store inside the program: it sees the instance, the
    disk, the console and the home directory. *)
Definition in_config {A} (m : M Config.state A) : M state A :=
  fun s =>
    let '(r, c) :=
      m {| Config.self := config s; Config.fs := fs (logging s);
           Config.stdout := stdout (logging s); Config.home := home s |} in
    (r, {| logging := with_stdout (Config.stdout c) (with_fs (Config.fs c) (logging s));
           config := Config.self c; home := home s; clock := clock s |}).

(** [name.rfind(".", 0, bound)], scanning from position [pos]. *)
Fixpoint rfind_dot_from (s : string) (pos bound : nat) : option nat :=
  match s with
  | EmptyString => None
  | String c s' =>
      match rfind_dot_from s' (S pos) bound with
      | Some j => Some j
      | None => if (pos <? bound)%nat && Ascii.eqb c "." then Some pos else None
      end
  end.

Definition rfind_dot (s : string) (bound : nat) : option nat :=
  rfind_dot_from s 0 bound.

(** The names under which the ancestors of a logger are looked up, nearest
    first:
    [i = name.rfind("."); while i > 0: name[:i]; i = name.rfind(".", 0, i - 1)]. *)
Fixpoint ancestors_from (fuel : nat) (name : string) (i : option nat) : list string :=
  match fuel, i with
  | S fuel', Some (S i') =>
      substring 0 (S i') name :: ancestors_from fuel' name (rfind_dot name i')
  | _, _ => []
  end.

Definition ancestors (name : string) : list string :=
  ancestors_from (String.length name) name (rfind_dot name (String.length name)).

(** [logging.getLogger(name)] is the root logger for these names. *)
Definition is_root (name : string) : bool :=
  String.eqb name "" || String.eqb name "root".

(** [Logger.getEffectiveLevel()]: the first level that is set on the way
    from the logger to the root, [NOTSET] when none is. *)
Definition getEffectiveLevel (name : string) (s : Logging.state) : Z :=
  let named := if is_root name then [] else name :: ancestors name in
  let levels := map (fun a => default 0%Z (logger_levels s !! a)) named ++ [root_level s] in
  default 0%Z (List.find (fun n => negb (n =? 0)%Z) levels).

Section Render.
(** [Formatter.format(record)]: the line a template gives for the name of
the logger, the name of the level, the message and the time the record
was created. *)
Variable render : string -> string -> string -> string -> nat -> string.

(** [handler.emit(record)]: a line on the console, or a line appended to
the log file. *)
Definition emit (line : string) (h : handler) : M Logging.state unit :=
match h_sink h with
| Console => Logging.print line
| LogFile path =>
  modify (fun s =>
    with_fs (with_files
               (<[path := default "" (files (fs s) !! path) +:+ line
                          +:+ String "010" EmptyString]> (files (fs s)))
               (fs s)) s)
end.

(** [logging.getLogger(name).info(msg)] for a record created at [created]:
nothing unless the effective level admits [INFO]; then every handler of
the root logger whose level admits it formats and emits the record, a
handler without a formatter with the template ["%(message)s"].  Named
loggers have no handlers of their own and propagate, and nothing is
disabled: the state has no place for anything else. *)
Definition info (name msg : string) (created : nat) : M Logging.state unit :=
let* level := gets (getEffectiveLevel name) in
if (level <=? INFO)%Z then
let* handlers := gets root_handlers in
for_each handlers (fun h =>
  if (h_level h <=? INFO)%Z
  then emit (render (default "%(message)s" (h_formatter h)) name "INFO" msg created) h
  else ret tt)
else ret tt.

(** A call of [logger.info] in the program: the record is stamped and time
moves on. *)
Definition log_info (name msg : string) : M state unit :=
fun s =>
let '(r, l) := info name msg (clock s) (logging s) in
(r, {| logging := l; config := config s; home := home s; clock := S (clock s) |}).

Definition print (line : string) : M state unit := in_logging (Logging.print line).

Variable valid_format : string -> bool.
Variable json_dumps : value -> string.
Variable json_loads : string -> option value.

(** [main()]; [__name__] is the name of the module as it was loaded. *)
Definition main (__name__ : string) : M state unit :=
let* _ := in_logging (setup_logging valid_format None None None) in
let logger := __name__ in
let* _ := log_info logger "Kick Presence starting..." in
let* _ := in_config (Config.new json_dumps json_loads None) in
let* text := in_config (Config.__str__ json_dumps) in
let* _ := log_info logger ("Configuration loaded: " +:+ text) in
let* _ := print "Kick Presence - Python desktop app for Kick monitoring" in
let* _ := print "This is a placeholder. Full implementation coming soon." in
log_info logger "Kick Presence initialized successfully".
End Render.

End Main.

(** ** A reference JSON codec

    [dumps] writes a value the way [json.dumps(v, indent=2)] lays it out
    (members and elements one per line, two spaces per level, [", "] never
    used, [": "] after a key); [loads] is a recursive-descent parser of the
    float-free fragment of JSON.  Characters outside printable ASCII are
    written as [\u00XX] escapes. *)

Module RefJson.

Definition quote : ascii := "034"%char.
Definition backslash : ascii := "092"%char.
Definition newline : ascii := "010"%char.

Fixpoint spaces (n : nat) : string :=
  match n with
  | 0 => EmptyString
  | S n' => String " " (spaces n')
  end.

(** A line break followed by the indentation of level [ind]. *)
Definition break (ind : nat) : string := String newline (spaces (2 * ind)).

Definition hex_digit (n : nat) : ascii :=
  match n with
  | 0 => "0" | 1 => "1" | 2 => "2" | 3 => "3" | 4 => "4" | 5 => "5"
  | 6 => "6" | 7 => "7" | 8 => "8" | 9 => "9" | 10 => "a" | 11 => "b"
  | 12 => "c" | 13 => "d" | 14 => "e" | _ => "f"
  end%char.

Definition hex_value (c : ascii) : option nat :=
  let n := nat_of_ascii c in
  if (48 <=? n)%nat && (n <=? 57)%nat then Some (n - 48)
  else if (97 <=? n)%nat && (n <=? 102)%nat then Some (n - 87)
  else if (65 <=? n)%nat && (n <=? 70)%nat then Some (n - 55)
  else None.

(** One character of a string literal. *)
Definition escape_char (c : ascii) : string :=
  let n := nat_of_ascii c in
  if Ascii.eqb c quote then String backslash (String quote EmptyString)
  else if Ascii.eqb c backslash then String backslash (String backslash EmptyString)
  else if (n =? 10)%nat then String backslash "n"
  else if (n =? 13)%nat then String backslash "r"
  else if (n =? 9)%nat then String backslash "t"
  else if (n =? 8)%nat then String backslash "b"
  else if (n =? 12)%nat then String backslash "f"
  else if (n <? 32)%nat || (126 <? n)%nat then
    String backslash
      (String "u" (String "0" (String "0"
         (String (hex_digit (n / 16)) (String (hex_digit (n mod 16)) EmptyString)))))
  else String c EmptyString.

Fixpoint escape (s : string) : string :=
  match s with
  | EmptyString => EmptyString
  | String c s' => escape_char c +:+ escape s'
  end.

Definition dump_string (s : string) : string :=
  String quote (escape s +:+ String quote EmptyString).

Definition dump_int (n : Z) : string := NilZero.string_of_int (Z.to_int n).

(** [json.dumps(v, indent=2)] at nesting level [ind]. *)
Fixpoint dump (ind : nat) (v : value) : string :=
  match v with
  | VNone => "null"
  | VBool true => "true"
  | VBool false => "false"
  | VInt n => dump_int n
  | VStr s => dump_string s
  | VList [] => "[]"
  | VList l =>
      "[" +:+ break (S ind) +:+
      (fix elems (l : list value) : string :=
         match l with
         | [] => EmptyString
         | x :: l' =>
             dump (S ind) x +:+
             match l' with
             | [] => break ind +:+ "]"
             | _ => "," +:+ break (S ind) +:+ elems l'
             end
         end) l
  | VDict [] => "{}"
  | VDict d =>
      "{" +:+ break (S ind) +:+
      (fix members (d : dict) : string :=
         match d with
         | [] => EmptyString
         | (k, x) :: d' =>
             dump_string k +:+ ": " +:+ dump (S ind) x +:+
             match d' with
             | [] => break ind +:+ "}"
             | _ => "," +:+ break (S ind) +:+ members d'
             end
         end) d
  end.

(** The elements of a non-empty array through its closing bracket, and the
    members of a non-empty object through its closing brace, as [dump]
    writes them. *)
Definition dump_elems (ind : nat) : list value -> string :=
  fix elems (l : list value) : string :=
    match l with
    | [] => EmptyString
    | x :: l' =>
        dump (S ind) x +:+
        match l' with
        | [] => break ind +:+ "]"
        | _ => "," +:+ break (S ind) +:+ elems l'
        end
    end.

Definition dump_members (ind : nat) : dict -> string :=
  fix members (d : dict) : string :=
    match d with
    | [] => EmptyString
    | (k, x) :: d' =>
        dump_string k +:+ ": " +:+ dump (S ind) x +:+
        match d' with
        | [] => break ind +:+ "}"
        | _ => "," +:+ break (S ind) +:+ members d'
        end
    end.

Definition dumps (v : value) : string := dump 0 v.

(** *** Parsing *)

Definition is_ws (c : ascii) : bool :=
  let n := nat_of_ascii c in
  (n =? 32)%nat || (n =? 10)%nat || (n =? 13)%nat || (n =? 9)%nat.

Fixpoint skip_ws (s : string) : string :=
  match s with
  | EmptyString => EmptyString
  | String c s' => if is_ws c then skip_ws s' else s
  end.

(** [s] minus the prefix [pre], when it starts with it. *)
Fixpoint strip_prefix (pre s : string) : option string :=
  match pre with
  | EmptyString => Some s
  | String a pre' =>
      match s with
      | EmptyString => None
      | String b s' => if Ascii.eqb a b then strip_prefix pre' s' else None
      end
  end.

Definition is_number_char (c : ascii) : bool :=
  let n := nat_of_ascii c in
  ((48 <=? n)%nat && (n <=? 57)%nat) || (n =? 45)%nat.

(** The longest prefix made of digits and minus signs, and the rest. *)
Fixpoint span_number (s : string) : string * string :=
  match s with
  | EmptyString => (EmptyString, EmptyString)
  | String c s' =>
      if is_number_char c
      then let '(tok, rest) := span_number s' in (String c tok, rest)
      else (EmptyString, s)
  end.

Fixpoint all_number (s : string) : bool :=
  match s with
  | EmptyString => true
  | String c s' => is_number_char c && all_number s'
  end.

(** What may follow a number for it to end where it ends. *)
Definition ends_number (rest : string) : bool :=
  match rest with
  | EmptyString => true
  | String c _ => negb (is_number_char c)
  end.

(** An integer in canonical form: no leading zero, no minus zero. *)
Definition parse_int (tok : string) : option Z :=
  match NilZero.int_of_string tok with
  | Some d =>
      let n := Z.of_int d in
      if String.eqb (dump_int n) tok then Some n else None
  | None => None
  end.

Definition unescape (c : ascii) : option ascii :=
  if Ascii.eqb c quote then Some quote
  else if Ascii.eqb c backslash then Some backslash
  else if Ascii.eqb c "/" then Some "/"%char
  else if Ascii.eqb c "n" then Some "010"%char
  else if Ascii.eqb c "r" then Some "013"%char
  else if Ascii.eqb c "t" then Some "009"%char
  else if Ascii.eqb c "b" then Some "008"%char
  else if Ascii.eqb c "f" then Some "012"%char
  else None.

(** The characters of a string literal after its opening quote, up to and
    including the closing quote; [\uXXXX] is accepted below 256. *)
Fixpoint parse_chars (s : string) : option (string * string) :=
  match s with
  | EmptyString => None
  | String c r =>
      if Ascii.eqb c quote then Some (EmptyString, r)
      else if Ascii.eqb c backslash then
        match r with
        | EmptyString => None
        | String e r1 =>
            match unescape e with
            | Some ch =>
                match parse_chars r1 with
                | Some (str, rest) => Some (String ch str, rest)
                | None => None
                end
            | None =>
                if Ascii.eqb e "u" then
                  match r1 with
                  | String h1 (String h2 (String h3 (String h4 r2))) =>
                      match hex_value h1, hex_value h2, hex_value h3, hex_value h4 with
                      | Some 0, Some 0, Some a, Some b =>
                          match parse_chars r2 with
                          | Some (str, rest) =>
                              Some (String (ascii_of_nat (16 * a + b)) str, rest)
                          | None => None
                          end
                      | _, _, _, _ => None
                      end
                  | _ => None
                  end
                else None
            end
        end
      else if (nat_of_ascii c <? 32)%nat then None
      else
        match parse_chars r with
        | Some (str, rest) => Some (String c str, rest)
        | None => None
        end
  end.

(** A Python dict from the members in the order read: a repeated key keeps
    its first position and takes the last value. *)
Definition dict_of_pairs (pairs : dict) : dict :=
  fold_left (fun d '(k, v) => dict_set k v d) pairs [].

(** The three mutually recursive parsers: a value; the elements of an
    array after its first bracket, through the closing one; the members of
    an object likewise. *)
Fixpoint parse_value (fuel : nat) (s : string) : option (value * string) :=
  match fuel with
  | 0 => None
  | S fuel' =>
      match skip_ws s with
      | EmptyString => None
      | String c r =>
          if Ascii.eqb c "n" then
            option_map (fun r' => (VNone, r')) (strip_prefix "ull" r)
          else if Ascii.eqb c "t" then
            option_map (fun r' => (VBool true, r')) (strip_prefix "rue" r)
          else if Ascii.eqb c "f" then
            option_map (fun r' => (VBool false, r')) (strip_prefix "alse" r)
          else if Ascii.eqb c quote then
            option_map (fun '(str, r') => (VStr str, r')) (parse_chars r)
          else if Ascii.eqb c "[" then
            match skip_ws r with
            | EmptyString => None
            | String c1 r1 =>
                if Ascii.eqb c1 "]" then Some (VList [], r1)
                else option_map (fun '(l, r') => (VList l, r'))
                                (parse_elems fuel' (String c1 r1))
            end
          else if Ascii.eqb c "{" then
            match skip_ws r with
            | EmptyString => None
            | String c1 r1 =>
                if Ascii.eqb c1 "}" then Some (VDict [], r1)
                else option_map (fun '(d, r') => (VDict (dict_of_pairs d), r'))
                                (parse_members fuel' (String c1 r1))
            end
          else
            let '(tok, r') := span_number (String c r) in
            option_map (fun n => (VInt n, r')) (parse_int tok)
      end
  end
with parse_elems (fuel : nat) (s : string) : option (list value * string) :=
  match fuel with
  | 0 => None
  | S fuel' =>
      match parse_value fuel' s with
      | Some (x, r) =>
          match skip_ws r with
          | EmptyString => None
          | String c r' =>
              if Ascii.eqb c "," then
                option_map (fun '(l, r'') => (x :: l, r'')) (parse_elems fuel' r')
              else if Ascii.eqb c "]" then Some ([x], r')
              else None
          end
      | None => None
      end
  end
with parse_members (fuel : nat) (s : string) : option (dict * string) :=
  match fuel with
  | 0 => None
  | S fuel' =>
      match skip_ws s with
      | EmptyString => None
      | String c r =>
          if Ascii.eqb c quote then
            match parse_chars r with
            | Some (k, r1) =>
                match skip_ws r1 with
                | EmptyString => None
                | String c2 r2 =>
                    if Ascii.eqb c2 ":" then
                      match parse_value fuel' r2 with
                      | Some (x, r3) =>
                          match skip_ws r3 with
                          | EmptyString => None
                          | String c4 r4 =>
                              if Ascii.eqb c4 "," then
                                option_map (fun '(d, r5) => ((k, x) :: d, r5))
                                           (parse_members fuel' r4)
                              else if Ascii.eqb c4 "}" then Some ([(k, x)], r4)
                              else None
                          end
                      | None => None
                      end
                    else None
                end
            | None => None
            end
          else None
      end
  end.

(** The fuel the parser needs for a value. *)
Fixpoint size (v : value) : nat :=
  match v with
  | VList l => S (fold_right (fun x n => S (size x + n)) 0 l)
  | VDict d => S (fold_right (fun '(_, x) n => S (size x + n)) 0 d)
  | _ => 1
  end.

(** [json.loads(text)]; [None] is a decode error. *)
Definition loads (text : string) : option value :=
  match parse_value (2 * String.length text + 2) text with
  | Some (v, rest) =>
      match skip_ws rest with
      | EmptyString => Some v
      | _ => None
      end
  | None => None
  end.

(** What the round trip of one value says: written at any level and
    followed by anything a number can end before, it is read back whole. *)
Definition round_trips (v : value) : Prop :=
  forall ind fuel rest,
    wf v -> size v <= fuel -> ends_number rest = true ->
    parse_value fuel (dump ind v +:+ rest) = Some (v, rest).

End RefJson.

(** ** Vocabulary of the statements *)

Module Spec.
Import Config.

(** The node a list of segments resolves to from [node]: defined when every
    segment is found in a mapping. *)
Fixpoint lookup_path (keys : list string) (node : value) : option value :=
  match keys with
  | [] => Some node
  | k :: keys' =>
      match node with
      | VDict d =>
          match dict_get k d with
          | Some child => lookup_path keys' child
          | None => None
          end
      | _ => None
      end
  end.

(** Every node met while descending along [init] is a mapping, as far as
    the path exists: the condition under which [set] does not raise. *)
Fixpoint mappings_along (init : list string) (node : value) : bool :=
  match node with
  | VDict d =>
      match init with
      | [] => true
      | k :: init' =>
          match dict_get k d with
          | Some child => mappings_along init' child
          | None => true
          end
      end
  | _ => false
  end.

(** One round of the merge on a document that is a dict, as a function on
    dicts. *)
Definition merge_item (m : dict) (item : string * value) : dict :=
  let '(key, value) := item in
  match dict_get key m with
  | None => dict_set key value m
  | Some (VDict dc) =>
      match value with
      | VDict dv => dict_set key (VDict (merge_section dv dc)) m
      | _ => m
      end
  | Some _ => m
  end.

(** The default schema as dotted keys, row by row. *)
Definition schema_table : list (string * value) :=
  [ ("kick.username", VStr "");
    ("kick.check_interval", VInt 30);
    ("kick.enable_notifications", VBool true);
    ("discord.client_id", VStr "");
    ("discord.enable_rich_presence", VBool true);
    ("gui.theme", VStr "dark");
    ("gui.start_minimized", VBool false);
    ("gui.minimize_to_tray", VBool true);
    ("logging.level", VStr "INFO");
    ("logging.file", VNone) ].

(** The diagnostics of a failed save and of a failed load. *)
Definition save_error (p : string) (e : exn) : string :=
  "Error saving config to " +:+ p +:+ ": " +:+ exn_msg e.

Definition load_error (p : string) (e : exn) : string :=
  "Error loading config from " +:+ p +:+ ": " +:+ exn_msg e.

(** A sequence of [set] calls, in order. *)
Fixpoint set_each (calls : list (string * value)) : M state unit :=
  match calls with
  | [] => ret tt
  | (key, v) :: calls' => let* _ := set key v in set_each calls'
  end.

(** A state whose instance is a constructed store at [path] holding [doc]. *)
Definition store_at (path : string) (doc : value) (disk : filesystem)
    (out : list string) (home_dir : string) : state :=
  {| self := {| config_path := Some path; config_data := Some doc |};
     fs := disk; stdout := out; home := home_dir |}.

(** A state in which no store has been constructed yet. *)
Definition fresh (disk : filesystem) (home_dir : string) : state :=
  {| self := {| config_path := None; config_data := None |};
     fs := disk; stdout := []; home := home_dir |}.

(** A disk with the given files and directories and no access failures. *)
Definition disk_of (fl : list (string * string)) (dl : list string) : filesystem :=
  {| files := list_to_map fl; dirs := list_to_set dl;
     unreadable := ∅; unwritable := ∅; partial := ∅; undecodable := ∅ |}.

(** The same disk with writes to [p] failing. *)
Definition deny_write (p : string) (disk : filesystem) : filesystem :=
  {| files := files disk; dirs := dirs disk;
     unreadable := unreadable disk; unwritable := {[p]} ∪ unwritable disk;
     partial := partial disk; undecodable := undecodable disk |}.

(** The same disk with reads of [p] failing. *)
Definition deny_read (p : string) (disk : filesystem) : filesystem :=
  {| files := files disk; dirs := dirs disk;
     unreadable := {[p]} ∪ unreadable disk; unwritable := unwritable disk;
     partial := partial disk; undecodable := undecodable disk |}.

(** The same disk with the device of [p] giving out after [n] characters of
    a write. *)
Definition give_out (p : string) (n : nat) (disk : filesystem) : filesystem :=
  {| files := files disk; dirs := dirs disk;
     unreadable := unreadable disk; unwritable := {[p]} ∪ unwritable disk;
     partial := <[p := n]> (partial disk); undecodable := undecodable disk |}.


(** The values that are not containers: no two paths of a document can
    share one. *)
Definition scalar (v : value) : bool :=
  match v with
  | VList _ | VDict _ => false
  | _ => true
  end.

(** A default section is in place in a document: the document has its key,
    and when the value there is a mapping it has every field of the default
    section.  This is what a round of the merge makes sure of. *)
Definition section_in_place (m : dict) (item : string * value) : bool :=
  match dict_get item.1 m with
  | None => false
  | Some (VDict dc) =>
      match item.2 with
      | VDict dv => forallb (fun f => dict_mem f dc) (map fst dv)
      | _ => true
      end
  | Some _ => true
  end.

(** The defaults are in place in a document. *)
Definition defaults_in_place (doc : value) : bool :=
  match doc with
  | VDict m => forallb (section_in_place m) default_config
  | _ => false
  end.

End Spec.
Import Spec.

Module LogSpec.
Import Logging.

(** The level name [setup_logging] looks up: the argument unless it is
    omitted or empty, else the environment variable in upper case, else
    ["INFO"]. *)
Definition level_name (level : option string) (env : gmap string string) : string :=
  let from_env := upper (default "INFO" (env !! "KICK_PRESENCE_LOG_LEVEL")) in
  match level with
  | Some l => if truthy (VStr l) then l else from_env
  | None => from_env
  end.

(** The numeric level it ends up with: [INFO] for an unknown name. *)
Definition level_number (level : option string) (env : gmap string string) : Z :=
  default INFO (logging_int_attr (level_name level env)).

(** The attempt to open the file sink at [path]: whether it succeeds, and
    the disk afterwards. *)
Definition file_sink_attempt (path : string) (disk : filesystem) : bool * filesystem :=
  match mkdir_parents (path_rank (path_parent path)) (path_parent path) disk with
  | (Ok _, disk1) =>
      match open_append path disk1 with
      | Ok disk2 => (true, disk2)
      | Raise _ => (false, disk1)
      end
  | (Raise _, disk1) => (false, disk1)
  end.

(** The sinks a call installs: the console, then the log file when a
    non-empty path is given and the file can be opened. *)
Definition expected_sinks (level log_file format_string : option string)
    (s : state) : list (sink * Z * option string) :=
  let n := level_number level (environ s) in
  let f := Some (default default_format format_string) in
  (Console, n, f) ::
  match log_file with
  | Some path =>
      if truthy (VStr path) && (file_sink_attempt path (fs s)).1
      then [(LogFile path, n, f)] else []
  | None => []
  end.



(** A state of the process with the given handlers, disk and environment. *)
Definition process (hs : list handler) (next : nat) (disk : filesystem)
    (env : gmap string string) : state :=
  {| root_level := WARNING; root_handlers := hs; logger_levels := ∅;
     next_id := next; fs := disk; stdout := []; environ := env |}.

(** A template has a field: what the reference check of a template looks
    for. *)
Definition has_field (format_string : string) : bool :=
  match String.index 0 "%(" format_string with Some _ => true | None => false end.

(** What a call prints about the level: nothing for a name that is an
    integer attribute of [logging], one line otherwise. *)
Definition level_diagnostic (level : option string) (env : gmap string string)
  : list string :=
  match logging_int_attr (level_name level env) with
  | Some _ => []
  | None => ["Invalid log level: " +:+ level_name level env +:+ ". Using INFO."]
  end.

(** The loggers of the third-party libraries a call quietens. *)
Definition third_party : list string := ["urllib3"; "requests"; "discord"].

End LogSpec.
Import LogSpec.

Module MainSpec.
Import Logging Main.

(** The logging state right after [setup_logging()] as far as levels go:
    what decides whether [main]'s logger lets an [INFO] record through. *)
Definition level_after_setup (name : string) (s : Logging.state) : Z :=
  getEffectiveLevel name
    (with_root_level (level_number None (environ s))
       (with_logger_levels
          (<["discord" := WARNING]>
             (<["requests" := WARNING]> (<["urllib3" := WARNING]> (logger_levels s))))
          s)).

(** Whether an [INFO] record of [main]'s logger reaches the console: the
    logger admits it and so does the console handler. *)
Definition info_shown (name : string) (s : Logging.state) : bool :=
  (level_after_setup name s <=? INFO)%Z && (level_number None (environ s) <=? INFO)%Z.

(** A program state: the process as [process] gives it, no store yet. *)
Definition program (l : Logging.state) (home_dir : string) (now : nat) : Main.state :=
  {| logging := l; config := {| Config.config_path := None; Config.config_data := None |};
     home := home_dir; clock := now |}.

(** A rendering of a record that leaves the time out, for examples. *)
Definition plain_render (template name levelname msg : string) (created : nat)
  : string :=
  name +:+ " - " +:+ levelname +:+ " - " +:+ msg.

End MainSpec.
Import MainSpec.

(** * Properties *)

(** ** dict *)

Section DictFacts.
Implicit Types (k : string) (v : value) (d : dict).

Lemma dict_get_set_eq k v d : dict_get k (dict_set k v d) = Some v.
Proof.
induction d as [|[k' v'] d IH]; simpl.
- by rewrite String.eqb_refl.
- destruct (String.eqb k k') eqn:E; simpl; by rewrite E.
Qed.

Lemma dict_get_set_ne k k' v d :
k <> k' -> dict_get k' (dict_set k v d) = dict_get k' d.
Proof.
intros Hne. induction d as [|[k0 v0] d IH]; simpl.
- destruct (String.eqb_spec k' k); congruence.
- destruct (String.eqb_spec k k0) as [->|]; simpl.
+ destruct (String.eqb_spec k' k0); congruence.
+ by rewrite IH.
Qed.

Lemma dict_get_set k k' v d :
dict_get k' (dict_set k v d) = if String.eqb k' k then Some v else dict_get k' d.
Proof.
destruct (String.eqb_spec k' k) as [->|Hne].
- apply dict_get_set_eq.
- apply dict_get_set_ne. congruence.
Qed.

Lemma dict_mem_true k d : dict_mem k d = true <-> exists v, dict_get k d = Some v.
Proof.
unfold dict_mem. destruct (dict_get k d); split; eauto; try done.
by intros [? ?].
Qed.

Lemma dict_mem_false k d : dict_mem k d = false <-> dict_get k d = None.
Proof. unfold dict_mem. by destruct (dict_get k d). Qed.

Lemma dict_get_keys k d : dict_get k d = None <-> k ∉@{list string} map fst d.
Proof.
induction d as [|[k' v'] d IH]; simpl.
- split; [intros _; apply not_elem_of_nil | done].
- rewrite not_elem_of_cons. destruct (String.eqb_spec k k'); split.
+ done.
+ intros [? _]; done.
+ intros; split; [done | by apply IH].
+ intros [_ ?]; by apply IH.
Qed.

Lemma dict_set_keys k v d :
map fst (dict_set k v d) =
if dict_mem k d then map fst d else map fst d ++ [k].
Proof.
unfold dict_mem. induction d as [|[k' v'] d IH]; simpl; [done|].
destruct (String.eqb k k') eqn:E; simpl; [done|].
rewrite IH. by destruct (dict_get k d).
Qed.

Lemma dict_set_NoDup k v d : NoDup (map fst d) -> NoDup (map fst (dict_set k v d)).
Proof.
intros Hnd. rewrite dict_set_keys. destruct (dict_mem k d) eqn:E; [done|].
apply dict_mem_false, dict_get_keys in E.
apply NoDup_app. split_and!; [done | | apply NoDup_singleton].
intros x Hx ->%list_elem_of_singleton. done.
Qed.
End DictFacts.

(** [split] never returns an empty list. *)
Lemma split_dot_nonempty s : split_dot s <> [].
Proof.
  destruct s as [|c s]; simpl; [done|].
  destruct (Ascii.eqb c "."); [done|]. by destruct (split_dot s).
Qed.

Lemma split_dot_init_last s :
  split_dot s = removelast (split_dot s) ++ [List.last (split_dot s) ""].
Proof. apply app_removelast_last, split_dot_nonempty. Qed.

(** ** get and set *)

Section GetSet.
Import Config.
Implicit Types (s : state) (doc node v default : value).

Lemma get_run s doc key default :
config_data (self s) = Some doc ->
get key default s = (Ok (get_loop (split_dot key) doc default), s).
Proof. intros H. unfold get, self_config_data, bind, ret. by rewrite H. Qed.

(** The loop of [get] is the path lookup with [default] for a miss. *)
Lemma get_loop_lookup keys node default :
get_loop keys node default =
match lookup_path keys node with Some v => v | None => default end.
Proof.
revert node. induction keys as [|k keys IH]; intros node; simpl; [done|].
destruct node; try done. destruct (dict_get k d); [apply IH | done].
Qed.

Lemma lookup_path_app pre post node :
lookup_path (pre ++ post) node =
match lookup_path pre node with
| Some n => lookup_path post n
| None => None
end.
Proof.
revert node. induction pre as [|k pre IH]; intros node; simpl; [done|].
destruct node; try done. destruct (dict_get k d); [apply IH | done].
Qed.

Lemma get_loop_miss pre k post doc node default :
lookup_path pre doc = Some node ->
(forall d, node = VDict d -> dict_get k d = None) ->
get_loop (pre ++ k :: post) doc default = default.
Proof.
intros Hpre Hmiss. rewrite get_loop_lookup, lookup_path_app, Hpre. simpl.
destruct node; try done. by rewrite (Hmiss d eq_refl).
Qed.

(** What [set_loop] leaves behind when it succeeds: the path resolves to
the value. *)
Lemma set_loop_lookup init last v config config' :
set_loop init last v config = (Ok tt, config') ->
lookup_path (init ++ [last]) config' = Some v.
Proof.
revert config config'. induction init as [|k init IH]; intros config config'; simpl.
- destruct config; simpl; try done. intros [= <-]. simpl.
by rewrite dict_get_set_eq.
- destruct (py_in k config) as [present|] eqn:Hin; [|done].
destruct (if present then Ok config else py_setitem config k (VDict []))
as [config1|] eqn:H1; [|done].
destruct (py_getitem config1 k) as [child|] eqn:Hget; [|done].
destruct (set_loop init last v child) as [r child'] eqn:Hrec.
intros [= -> <-].
destruct config1; simpl in Hget; try done. simpl.
rewrite dict_get_set_eq. by eapply IH.
Qed.

(** Below a mapping that [set] has just created nothing can fail. *)
Lemma set_loop_fresh init last v :
exists config', set_loop init last v (VDict []) = (Ok tt, config').
Proof.
induction init as [|k init [c IH]]; simpl; [by eexists|].
rewrite String.eqb_refl, IH. by eexists.
Qed.

Lemma dict_set_same k v d : dict_get k d = Some v -> dict_set k v d = d.
Proof.
induction d as [|[k' v'] d IH]; simpl; [done|].
destruct (String.eqb_spec k k') as [->|]; [congruence|].
intros H. f_equal. by apply IH.
Qed.

(** A [set] that raises has changed nothing: it can only fail on a node
that was there before, ahead of the first mapping it would create. *)
Lemma set_loop_raise init last v config config' e :
set_loop init last v config = (Raise e, config') -> config' = config.
Proof.
revert config config'. induction init as [|k init IH]; intros config config'; simpl.
- destruct config; simpl; try done; by intros [= _ <-].
- destruct (py_in k config) as [present|] eqn:Hin; [|by intros [= _ <-]].
destruct present; simpl.
+ destruct (py_getitem config k) as [child|] eqn:Hget; [|by intros [= _ <-]].
destruct (set_loop init last v child) as [r child'] eqn:Hrec.
intros [= -> <-]. apply IH in Hrec as ->.
destruct config; simpl in *; try done.
destruct (dict_get k d) eqn:Hk; [|done]. injection Hget as ->.
f_equal. by apply dict_set_same.
+ destruct (py_setitem config k (VDict [])) as [config1|] eqn:H1;
[|by intros [= _ <-]].
destruct config; simpl in H1; try done. injection H1 as <-. simpl.
rewrite dict_get_set_eq.
destruct (set_loop_fresh init last v) as [c ->]. done.
Qed.

Lemma set_loop_ok init last v config :
mappings_along init config = true ->
exists config', set_loop init last v config = (Ok tt, config').
Proof.
revert config. induction init as [|k init IH]; intros config; simpl.
- destruct config; simpl; try done. by eexists.
- destruct config; simpl; try done. unfold dict_mem.
destruct (dict_get k d) as [child|] eqn:Hk; simpl.
+ rewrite Hk. intros [c ->]%IH. by eexists.
+ intros _. rewrite dict_get_set_eq.
destruct (set_loop_fresh init last v) as [c ->]. by eexists.
Qed.

Lemma set_loop_not_ok init last v config :
mappings_along init config = false ->
fst (set_loop init last v config) = Raise TypeError.
Proof.
revert config. induction init as [|k init IH]; intros config; simpl.
- by destruct config.
- destruct config; simpl; try done.
+ destruct (index 0 k s); done.
+ by destruct (existsb _ l).
+ unfold dict_mem. destruct (dict_get k d) as [child|] eqn:Hk; [|done].
simpl. rewrite Hk. intros H%IH.
by destruct (set_loop init last v child) as [r c]; simpl in *; subst.
Qed.

Lemma set_run s doc key v :
config_data (self s) = Some doc ->
set key v s =
let '(r, doc') := set_loop (removelast (split_dot key))
             (List.last (split_dot key) "") v doc in
(r, with_self {| config_path := config_path (self s);
   config_data := Some doc' |} s).
Proof.
intros H. unfold set, self_config_data, bind. rewrite H.
destruct (set_loop _ _ v doc) as [r doc']. unfold assign_config_data, modify, lift.
by destruct r.
Qed.
End GetSet.

(** C2, as amended.  For every value [v] and every dotted key whose segments
    before the last meet only mappings as far as they exist in the document
    (missing ones are created), [set(key, v)] returns and [get(key)] on the
    same store then returns exactly [v]. *)
Theorem set_then_get (s : Config.state) (doc v default : value) (key : string) :
  Config.config_data (Config.self s) = Some doc ->
  mappings_along (removelast (split_dot key)) doc = true ->
  exists s', Config.set key v s = (Ok tt, s') /\
             Config.get key default s' = (Ok v, s').
Proof.
  intros Hdoc Hok. rewrite (set_run s doc key v Hdoc).
  destruct (set_loop_ok _ (List.last (split_dot key) "") v doc Hok) as [doc' Hset].
  rewrite Hset. eexists. split; [done|].
  erewrite get_run by done. f_equal. f_equal.
  rewrite get_loop_lookup, (split_dot_init_last key).
  by rewrite (set_loop_lookup _ _ _ _ _ Hset).
Qed.

Lemma set_then_get_witness :
  let s := store_at "/c.json" (VDict Config.default_config) (disk_of [] []) [] "/home/u" in
  exists s', Config.set "a.b.c" (VInt 7) s = (Ok tt, s') /\
             Config.get "a.b.c" VNone s' = (Ok (VInt 7), s').
Proof. apply (set_then_get _ (VDict Config.default_config)); reflexivity. Defined.

(** C2 as stated fails: with the default document, where [kick.username] is
    a string, [set("kick.username.x", v)] raises [TypeError], changes
    nothing, and [get] still answers the default. *)
Lemma set_through_string_raises :
  let s := store_at "/c.json" (VDict Config.default_config) (disk_of [] []) [] "/home/u" in
  Config.set "kick.username.x" (VStr "v") s = (Raise TypeError, s) /\
  Config.get "kick.username.x" VNone s = (Ok VNone, s).
Proof. split; reflexivity. Qed.

(** C7.  On a constructed store [get] returns a value and never raises; it
    returns [default] as soon as a segment is not found in a mapping node
    (the node is not a mapping, or lacks the segment), and the absent value
    [None] when no default is passed. *)
Theorem get_returns_default (s : Config.state) (doc default : value) (key : string) :
  Config.config_data (Config.self s) = Some doc ->
  (exists v, Config.get key default s = (Ok v, s)) /\
  (forall pre k post node,
     split_dot key = pre ++ k :: post ->
     lookup_path pre doc = Some node ->
     (forall d, node = VDict d -> dict_get k d = None) ->
     Config.get key default s = (Ok default, s) /\
     Config.get key VNone s = (Ok VNone, s)).
Proof.
  intros Hdoc. split.
  - rewrite (get_run s doc key default Hdoc). by eexists.
  - intros pre k post node Hsplit Hpre Hmiss.
    rewrite !(get_run s doc key) by done. rewrite Hsplit.
    by rewrite !(get_loop_miss pre k post doc node) by done.
Qed.

Lemma get_returns_default_witness :
  let s := store_at "/c.json" (VDict Config.default_config) (disk_of [] []) [] "/home/u" in
  Config.get "missing.key" (VStr "fallback") s = (Ok (VStr "fallback"), s) /\
  Config.get "missing.key" VNone s = (Ok VNone, s).
Proof.
  intros s.
  apply (proj2 (get_returns_default s (VDict Config.default_config)
                  (VStr "fallback") "missing.key" eq_refl)
           [] "missing" ["key"] (VDict Config.default_config));
    [reflexivity | reflexivity |].
  intros d [= <-]. reflexivity.
Defined.

(** C9.  [get] changes nothing: the instance, its document, the disk and
    the console are after the call what they were before it, for every key,
    every default and every state. *)
Theorem get_changes_nothing (s : Config.state) (key : string) (default : value) :
  snd (Config.get key default s) = s.
Proof.
  unfold Config.get, Config.self_config_data, bind, ret.
  by destruct (Config.config_data (Config.self s)).
Qed.

(** By contrast [set] on a missing path creates the intermediate mappings. *)
Example set_creates_intermediate :
  let s := store_at "/c.json" (VDict []) (disk_of [] []) [] "/home/u" in
  Config.config_data (Config.self (snd (Config.set "a.b" (VInt 1) s)))
  = Some (VDict [("a", VDict [("b", VInt 1)])]) /\
  Config.config_data (Config.self (snd (Config.get "a.b" (VInt 1) s)))
  = Some (VDict []).
Proof. split; reflexivity. Qed.

(** ** The merge with the defaults *)

Section Merge.
Import Config.
Implicit Types (k f : string) (v : value) (d m dv dc : dict).

(** A section after the inner loop: what the file had, then the default
fields it lacked. *)
Lemma merge_section_get f dv dc :
dict_get f (merge_section dv dc) =
match dict_get f dc with
| Some v => Some v
| None => dict_get f dv
end.
Proof.
unfold merge_section. revert dc.
induction dv as [|[k v] dv IH]; intros dc; simpl.
- by destruct (dict_get f dc).
- rewrite IH. unfold dict_mem.
destruct (dict_get k dc) as [vk|] eqn:Hk.
+ destruct (dict_get f dc) eqn:Hf; [done|].
destruct (String.eqb_spec f k) as [->|]; [congruence | done].
+ rewrite dict_get_set.
destruct (String.eqb_spec f k) as [->|]; [by rewrite Hk|done].
Qed.

Lemma merge_step_dict m item :
merge_step (VDict m) item = Ok (VDict (merge_item m item)).
Proof.
destruct item as [key value]. unfold merge_step, merge_item, dict_mem. simpl.
unfold dict_mem. destruct (dict_get key m) as [cur|] eqn:Hk; simpl; [|done].
by destruct value, cur.
Qed.

(** On a dict the merge never raises. *)
Lemma merge_loop_dict items m :
merge_loop items (VDict m) = Ok (VDict (fold_left merge_item items m)).
Proof.
revert m. induction items as [|item items IH]; intros m; simpl; [done|].
by rewrite merge_step_dict; simpl.
Qed.

(** What the merged document holds under each top-level key. *)
Lemma merge_get items m k :
NoDup (map fst items) ->
dict_get k (fold_left merge_item items m) =
match dict_get k items, dict_get k m with
| None, cur => cur
| Some value, None => Some value
| Some (VDict dv), Some (VDict dc) => Some (VDict (merge_section dv dc))
| Some _, Some cur => Some cur
end.
Proof.
revert m. induction items as [|[key value] items IH]; intros m Hnd.
- simpl. by destruct (dict_get k m).
- change (map fst ((key, value) :: items)) with (key :: map fst items) in Hnd.
apply NoDup_cons in Hnd as [Hkey Hnd]. cbn [fold_left]. rewrite IH by done.
cbn [dict_get]. destruct (String.eqb_spec k key) as [->|Hne].
+ apply dict_get_keys in Hkey. rewrite Hkey. unfold merge_item.
destruct (dict_get key m) as [[]|] eqn:Hk; destruct value;
rewrite ?Hk, ?dict_get_set_eq; done.
+ assert (dict_get k (merge_item m (key, value)) = dict_get k m) as ->; [|done].
unfold merge_item.
destruct (dict_get key m) as [[]|]; destruct value; try done;
by apply dict_get_set_ne.
Qed.

Lemma default_config_NoDup : NoDup (map fst default_config).
Proof. apply (bool_decide_unpack _). by vm_compute. Qed.

(** When the file is not a JSON object the merge raises [TypeError]. *)
Lemma merge_loop_not_dict v :
isinstance_dict v = false ->
merge_loop default_config v = Raise TypeError.
Proof.
destruct v; try done; intros _; simpl.
- destruct (index 0 "kick" s); done.
- by destruct (existsb _ l).
Qed.

(** A section that has every default field is left as it is. *)
Lemma merge_section_full dv dc :
(forall k, k ∈ map fst dv -> dict_mem k dc = true) ->
merge_section dv dc = dc.
Proof.
unfold merge_section. induction dv as [|[k v] dv IH]; intros Hall; simpl; [done|].
rewrite (Hall k) by (simpl; apply list_elem_of_here).
apply IH. intros k' Hk'. apply Hall. simpl. by apply list_elem_of_further.
Qed.

Lemma merge_section_idem dv dc :
merge_section dv (merge_section dv dc) = merge_section dv dc.
Proof.
apply merge_section_full. intros k Hk. unfold dict_mem.
rewrite merge_section_get.
destruct (dict_get k dc); [done|].
destruct (dict_get k dv) eqn:Hdv; [done|].
by apply dict_get_keys in Hdv.
Qed.

Lemma dict_get_elem k v d :
NoDup (map fst d) -> (k, v) ∈ d -> dict_get k d = Some v.
Proof.
induction d as [|[k' v'] d IH]; simpl; intros Hnd Hin.
- by apply elem_of_nil in Hin.
- apply NoDup_cons in Hnd as [Hk' Hnd].
apply elem_of_cons in Hin as [[= -> ->]|Hin]; [by rewrite String.eqb_refl|].
destruct (String.eqb_spec k k') as [->|]; [|by apply IH].
exfalso. apply Hk'. apply list_elem_of_fmap. by exists (k', v).
Qed.

(** Once the defaults are merged in, each round of the merge finds its
work done. *)
Lemma merge_item_done items m item :
NoDup (map fst items) -> item ∈ items ->
merge_item (fold_left merge_item items m) item = fold_left merge_item items m.
Proof.
intros Hnd Hin. destruct item as [key value].
pose proof (merge_get items m key Hnd) as Hget.
rewrite (dict_get_elem key value items Hnd Hin) in Hget.
set (m' := fold_left merge_item items m) in *.
unfold merge_item.
destruct (dict_get key m) as [cur|].
- destruct value as [| | | | |dv], cur as [| | | | |dc]; rewrite Hget; try done.
rewrite merge_section_idem. by apply dict_set_same.
- rewrite Hget. destruct value as [| | | | |dv]; try done.
rewrite merge_section_full; [by apply dict_set_same|].
intros k Hk. unfold dict_mem. destruct (dict_get k dv) eqn:Hdv; [done|].
by apply dict_get_keys in Hdv.
Qed.

Lemma merge_items_done items m :
NoDup (map fst items) ->
fold_left merge_item items (fold_left merge_item items m)
= fold_left merge_item items m.
Proof.
intros Hnd.
assert (forall l, l ⊆ items ->
fold_left merge_item l (fold_left merge_item items m)
= fold_left merge_item items m) as H.
{ induction l as [|item l IH]; intros Hsub; [done|].
cbn [fold_left]. rewrite merge_item_done; [|done|].
- apply IH. intros x Hx. apply Hsub. by apply list_elem_of_further.
- apply Hsub. apply list_elem_of_here. }
by apply H.
Qed.

End Merge.

(** ** The file system *)

Section FileSystem.
Implicit Types (p text : string) (disk : filesystem).

(** Reading fails with an I/O error, or with a decode error on a file that
    is there but is not UTF-8. *)
Lemma read_text_raise p disk e :
  read_text p disk = Raise e ->
  (exists msg, e = OSError msg) \/
  (e = UnicodeDecodeError /\ p ∈ undecodable disk /\ is_Some (files disk !! p)).
Proof.
  unfold read_text. repeat case_bool_decide; try (intros [= <-]; left; by eexists).
  - destruct (files disk !! p) eqn:E; intros [= <-]; [right | left]; eauto.
  - destruct (files disk !! p); [done|]. intros [= <-]. left. by eexists.
Qed.

Lemma read_text_ok p disk text :
  read_text p disk = Ok text ->
  files disk !! p = Some text /\ (p ∉ unreadable disk) /\ path_exists p disk = true.
Proof.
  unfold read_text. repeat case_bool_decide; try done.
  - by destruct (files disk !! p).
  - destruct (files disk !! p) eqn:E; [|done]. intros [= ->].
    split_and!; try done. unfold path_exists. apply orb_true_iff. left.
    apply bool_decide_eq_true. by rewrite E.
Qed.

Lemma read_text_ok_iff p disk text :
  read_text p disk = Ok text <->
  files disk !! p = Some text /\ (p ∉ unreadable disk) /\ (p ∉ dirs disk) /\
  (p ∉ undecodable disk).
Proof.
  unfold read_text. repeat case_bool_decide; split; try done; try tauto.
  - by destruct (files disk !! p).
  - destruct (files disk !! p); [|done]. by intros [= ->].
  - by intros (-> & _).
Qed.

(** A write fails with an I/O error only. *)
Lemma write_text_raise p text disk e disk' :
  write_text p text disk = (Raise e, disk') -> exists msg, e = OSError msg.
Proof.
  unfold write_text. repeat case_bool_decide; try done.
  - intros [= <- _]. by eexists.
  - destruct (partial disk !! p); intros [= <- _]; by eexists.
Qed.

Lemma write_text_ok p text disk :
  p ∉ unwritable disk -> p ∉ dirs disk ->
  write_text p text disk = (Ok tt, write_file p text disk).
Proof. intros. unfold write_text. by repeat case_bool_decide. Qed.

(** At an unwritable path the write fails: either nothing changes, or the
    file is left with the beginning of the text. *)
Lemma write_text_denied p text disk :
  p ∈ unwritable disk -> p ∉ dirs disk ->
  exists msg,
    write_text p text disk =
    (Raise (OSError msg),
     match partial disk !! p with
     | None => disk
     | Some n => write_file p (substring 0 n text) disk
     end).
Proof.
  intros. unfold write_text. repeat case_bool_decide; try done.
  destruct (partial disk !! p); by eexists.
Qed.

(** Whatever a write does, it does to the file at its path. *)
Lemma write_text_frame p text disk r disk' :
  write_text p text disk = (r, disk') ->
  dirs disk' = dirs disk /\ unreadable disk' = unreadable disk /\
  unwritable disk' = unwritable disk /\
  forall q, q <> p -> files disk' !! q = files disk !! q.
Proof.
  unfold write_text. repeat case_bool_decide; try (intros [= <- <-]; by split_and!).
  - destruct (partial disk !! p); intros [= <- <-]; split_and!; try done.
    intros q Hq. simpl. by rewrite lookup_insert_ne.
  - intros [= <- <-]. split_and!; try done.
    intros q Hq. simpl. by rewrite lookup_insert_ne.
Qed.

Lemma path_exists_false p disk :
  path_exists p disk = false <-> files disk !! p = None /\ (p ∉ dirs disk).
Proof.
  unfold path_exists. rewrite orb_false_iff, !bool_decide_eq_false.
  by rewrite <-eq_None_not_Some.
Qed.
End FileSystem.

(** ** Construction, load and save *)

Section Store.
Import Config.
Variable json_dumps : value -> string.
Variable json_loads : string -> option value.
Implicit Types (s : state) (p : string) (doc v : value).

Local Abbreviation save_config := (Config.save_config json_dumps).
Local Abbreviation _load_config := (Config._load_config json_dumps json_loads).
Local Abbreviation new := (Config.new json_dumps json_loads).

(** [save_config] never raises on an instance that has its path: a
    failed write becomes a line on the console. *)
Lemma save_config_run s p arg doc :
  config_path (self s) = Some p ->
  (truthy arg = true /\ doc = arg) \/
  (truthy arg = false /\ config_data (self s) = Some doc) ->
  save_config arg s =
  match write_text p (json_dumps doc) (fs s) with
  | (Ok _, disk') => (Ok tt, with_fs disk' s)
  | (Raise e, disk') =>
      (Ok tt, with_stdout (stdout s ++ [save_error p e]) (with_fs disk' s))
  end.
Proof.
  intros Hp Harg. unfold Config.save_config, bind, try_except.
  assert ((if truthy arg then ret arg else self_config_data) s = (Ok doc, s)) as ->.
  { destruct Harg as [[-> ->]|[-> Hd]]; [done|].
    unfold self_config_data. by rewrite Hd. }
  unfold self_config_path, os_write_text. rewrite Hp.
  destruct (write_text p (json_dumps doc) (fs s)) as [[[]|e] disk'] eqn:Hw; [done|].
  apply write_text_raise in Hw as [msg ->]. simpl. by rewrite Hp.
Qed.

(** [_load_config] on an instance that has its path: the handler takes the
    I/O errors and the decode errors of [json], and lets everything else
    through. *)
Lemma load_config_run s p :
  config_path (self s) = Some p ->
  _load_config s =
  if path_exists p (fs s) then
    match read_text p (fs s) with
    | Raise e =>
        match e with
        | OSError _ | JSONDecodeError =>
            (Ok (VDict default_config), with_stdout (stdout s ++ [load_error p e]) s)
        | _ => (Raise e, s)
        end
    | Ok text =>
        match json_loads text with
        | None => (Ok (VDict default_config),
                   with_stdout (stdout s ++ [load_error p JSONDecodeError]) s)
        | Some loaded => (merge_loop default_config loaded, s)
        end
    end
  else
    (Ok (VDict default_config), snd (save_config (VDict default_config) s)).
Proof.
  intros Hp. unfold Config._load_config, bind at 1, self_config_path. rewrite Hp.
  unfold bind at 1, os_path_exists, gets.
  destruct (path_exists p (fs s)) eqn:Hex.
  - unfold try_except, bind, os_read_text, lift.
    destruct (read_text p (fs s)) as [text|e] eqn:Hr.
    + destruct (json_loads text) as [loaded|] eqn:Hl.
      * destruct (isinstance_dict loaded) eqn:Hd.
        -- destruct loaded; try done. by rewrite merge_loop_dict.
        -- by rewrite merge_loop_not_dict.
      * simpl. by rewrite Hp.
    + destruct e; simpl; by rewrite ?Hp.
  - rewrite (save_config_run s p _ (VDict default_config) Hp) by (by left).
    unfold bind. rewrite (save_config_run s p _ (VDict default_config) Hp) by (by left).
    by destruct (write_text _ _ _) as [[[]|e] disk'].
Qed.

(** [Config(p)] for a non-empty [p]. *)
Lemma new_explicit s p :
  p <> "" ->
  new (Some p) s =
  let s0 := with_self {| config_path := Some p; config_data := None |} s in
  match _load_config s0 with
  | (Ok doc, s1) =>
      (Ok tt, with_self {| config_path := config_path (self s1);
                           config_data := Some doc |} s1)
  | (Raise e, s1) => (Raise e, s1)
  end.
Proof.
  intros Hp. unfold Config.new, Config.__init__, bind, modify. simpl.
  destruct (String.eqb_spec p ""); [done|]. simpl.
  by destruct (_load_config _) as [[doc|e] s1].
Qed.

(** [Config(p)] for a non-empty [p], case by case. *)
Lemma new_run s p :
  p <> "" ->
  new (Some p) s =
  if path_exists p (fs s) then
    match read_text p (fs s) with
    | Raise e =>
        match e with
        | OSError _ | JSONDecodeError =>
            (Ok tt, store_at p (VDict default_config) (fs s)
                      (stdout s ++ [load_error p e]) (home s))
        | _ => (Raise e, with_self {| config_path := Some p;
                                      config_data := None |} s)
        end
    | Ok text =>
        match json_loads text with
        | None =>
            (Ok tt, store_at p (VDict default_config) (fs s)
                      (stdout s ++ [load_error p JSONDecodeError]) (home s))
        | Some loaded =>
            match merge_loop default_config loaded with
            | Ok doc => (Ok tt, store_at p doc (fs s) (stdout s) (home s))
            | Raise e =>
                (Raise e, with_self {| config_path := Some p;
                                       config_data := None |} s)
            end
        end
    end
  else
    match write_text p (json_dumps (VDict default_config)) (fs s) with
    | (Ok _, disk') =>
        (Ok tt, store_at p (VDict default_config) disk' (stdout s) (home s))
    | (Raise e, disk') =>
        (Ok tt, store_at p (VDict default_config) disk'
                  (stdout s ++ [save_error p e]) (home s))
    end.
Proof.
  intros Hp. rewrite (new_explicit s p Hp). cbv zeta.
  set (s0 := with_self _ s).
  rewrite (load_config_run s0 p eq_refl). simpl.
  destruct (path_exists p (fs s)).
  - destruct (read_text p (fs s)) as [text|e]; [|by destruct e].
    destruct (json_loads text) as [loaded|]; [|done].
    by destruct (merge_loop default_config loaded).
  - rewrite (save_config_run s0 p _ (VDict default_config) eq_refl) by (by left).
    simpl. by destruct (write_text p _ (fs s)) as [[[]|e] disk'].
Qed.

Lemma mkdir_exist_ok_dirs p disk disk' :
  mkdir_exist_ok p disk = Ok disk' ->
  p ∈ dirs disk' /\ files disk' = files disk.
Proof.
  unfold mkdir_exist_ok. repeat case_bool_decide; try done; intros [= <-]; [done|].
  split; [|done]. simpl. set_solver.
Qed.

(** Loading leaves the path of the instance and the directories alone. *)
Lemma load_config_frame s p :
  config_path (self s) = Some p ->
  config_path (self (snd (_load_config s))) = Some p /\
  dirs (fs (snd (_load_config s))) = dirs (fs s).
Proof.
  intros Hp. rewrite (load_config_run s p Hp).
  destruct (path_exists p (fs s)).
  - destruct (read_text p (fs s)) as [text|e];
      [by destruct (json_loads text) | by destruct e].
  - rewrite (save_config_run s p _ (VDict default_config) Hp) by (by left).
    destruct (write_text p _ (fs s)) as [r disk'] eqn:Hw.
    apply write_text_frame in Hw as (Hd & _). by destruct r as [[]|e].
Qed.

(** C10.  The empty string as the path argument is treated exactly like an
    omitted path: the two constructions are the same computation, and when
    it returns the store sits at [config.json] in the [.kick_presence]
    directory under the home directory, which exists afterwards. *)
Theorem empty_path_is_default_path s :
new (Some "") s = new None s /\
forall s', new (Some "") s = (Ok tt, s') ->
config_path (self s') =
Some (path_join (path_join (home s) ".kick_presence") "config.json") /\
path_join (home s) ".kick_presence" ∈ dirs (fs s').
Proof.
  split; [done|]. intros s'.
  unfold Config.new, Config.__init__, Config._get_default_config_path.
  unfold bind, modify, gets, os_mkdir_exist_ok, ret, assign_config_path. simpl.
  destruct (mkdir_exist_ok _ (fs s)) as [disk'|e] eqn:Hmk; [|done].
  apply mkdir_exist_ok_dirs in Hmk as [Hdir _].
  match goal with |- context [_load_config ?s0] =>
    pose proof (load_config_frame s0 _ eq_refl) as [Hp Hd];
    destruct (_load_config s0) as [[doc|e] s1] end; [|done].
  intros [= <-]. simpl in *. rewrite Hp, Hd. done.
Qed.


(** A file whose bytes are not UTF-8 is another matter: the decode error is
    no I/O error and no JSON error, and construction raises it. *)
Lemma undecodable_file_raises s p :
  p <> "" ->
  path_exists p (fs s) = true ->
  read_text p (fs s) = Raise UnicodeDecodeError ->
  exists s',
    new (Some p) s = (Raise UnicodeDecodeError, s') /\
    fs s' = fs s /\ stdout s' = stdout s /\ config_data (self s') = None.
Proof.
  intros Hp Hex Hr. rewrite (new_run s p Hp), Hex, Hr. by eexists.
Qed.

(** C5, as amended.  When nothing exists at the path (a path with no NUL
    in it), construction returns and the store holds the default schema:
    every row of the schema table is retrievable with its default.  When
    the file can be written it exists afterwards, parses to the default
    document, and nothing is printed.  When the write fails, one line goes
    to the console, [Error saving config to], the path, a colon and the
    text of the error; the disk is as it was, with no file, when the file
    could not be opened, and the file holds the beginning of the text when
    the device gave out after it was opened. *)
Theorem fresh_store_persists_defaults s p :
  json_loads (json_dumps (VDict default_config)) = Some (VDict default_config) ->
  p <> "" ->
  has_nul p = false ->
  path_exists p (fs s) = false ->
  exists s',
    new (Some p) s = (Ok tt, s') /\
    config_data (self s') = Some (VDict default_config) /\
    Forall (fun row => get row.1 VNone s' = (Ok row.2, s')) schema_table /\
    ((p ∉ unwritable (fs s)) ->
     stdout s' = stdout s /\
     path_exists p (fs s') = true /\
     exists text, files (fs s') !! p = Some text /\
                  json_loads text = Some (VDict default_config)) /\
    (p ∈ unwritable (fs s) ->
     (exists msg,
        stdout s' = stdout s ++ ["Error saving config to " +:+ p +:+ ": " +:+ msg]) /\
     match partial (fs s) !! p with
     | None => fs s' = fs s /\ path_exists p (fs s') = false
     | Some n =>
         files (fs s') !! p
         = Some (substring 0 n (json_dumps (VDict default_config)))
     end).
Proof.
  intros Hrt Hp Hnul Hex. rewrite (new_run s p Hp), Hex.
  pose proof Hex as Hex'. apply path_exists_false in Hex' as [Hf Hd].
  destruct (decide (p ∈ unwritable (fs s))) as [Hw|Hw].
  - destruct (write_text_denied p (json_dumps (VDict default_config)) _ Hw Hd)
      as [msg ->].
    eexists. split; [reflexivity|]. simpl. split_and!; [done| | |].
    + repeat constructor.
    + done.
    + intros _. split; [by exists msg|].
      destruct (partial (fs s) !! p); simpl; [by rewrite lookup_insert_eq | done].
  - rewrite write_text_ok by done.
    eexists. split; [reflexivity|]. simpl. split_and!; [done| | |done].
    + repeat constructor.
    + intros _. split_and!; [done| |].
      * unfold path_exists. simpl. rewrite lookup_insert_eq. done.
      * exists (json_dumps (VDict default_config)). by rewrite lookup_insert_eq.
Qed.

(** [save_config(data)] with a non-empty [data] writes [data]. *)
Lemma save_config_writes_argument s p d :
  config_path (self s) = Some p ->
  d <> [] ->
  p ∉ unwritable (fs s) -> p ∉ dirs (fs s) ->
  files (fs (snd (save_config (VDict d) s))) !! p = Some (json_dumps (VDict d)).
Proof.
  intros Hp Hd Hw Hdir.
  rewrite (save_config_run s p _ (VDict d) Hp) by (left; by destruct d).
  rewrite write_text_ok by done. simpl. by rewrite lookup_insert_eq.
Qed.

(** C6 fails at the empty document: [data_to_save = config_data or
    self.config_data] takes the in-memory document whenever the argument
    is falsy, so [save_config({})] writes the in-memory document and not
    [{}]. *)
Theorem save_config_empty_dict_writes_memory s p doc :
config_path (self s) = Some p ->
config_data (self s) = Some doc ->
p ∉ unwritable (fs s) -> p ∉ dirs (fs s) ->
files (fs (snd (save_config (VDict []) s))) !! p = Some (json_dumps doc).
Proof.
  intros Hp Hdoc Hw Hdir.
  rewrite (save_config_run s p _ doc Hp) by (by right).
  rewrite write_text_ok by done. simpl. by rewrite lookup_insert_eq.
Qed.
End Store.
(** ** Well-formed values *)

Section WellFormed.
Import Config.
Implicit Types (k f : string) (v : value) (d m dv dc : dict).

Lemma wf_dict d :
wf (VDict d) <-> NoDup (map fst d) /\ Forall (fun kv => wf kv.2) d.
Proof.
unfold wf. simpl. rewrite andb_true_iff, bool_decide_eq_true.
apply and_iff_compat_l.
induction d as [|[k v] d IH]; simpl; [by split|].
by rewrite andb_true_iff, Forall_cons, IH.
Qed.

Lemma wf_dict_get k v d : wf (VDict d) -> dict_get k d = Some v -> wf v.
Proof.
rewrite wf_dict. intros [_ Hall]. induction Hall as [|[k' v'] d Hv Hall IH]; [done|].
simpl. destruct (String.eqb k k'); [by intros [= <-]|done].
Qed.

Lemma wf_dict_set k v d : wf (VDict d) -> wf v -> wf (VDict (dict_set k v d)).
Proof.
rewrite !wf_dict. intros [Hnd Hall] Hv. split; [by apply dict_set_NoDup|].
clear Hnd. induction Hall as [|[k' v'] d Hv' Hall IH]; simpl.
- by repeat constructor.
- destruct (String.eqb k k'); by constructor.
Qed.

Lemma wf_merge_section dv dc :
wf (VDict dv) -> wf (VDict dc) -> wf (VDict (merge_section dv dc)).
Proof.
unfold merge_section. revert dc.
induction dv as [|[k v] dv IH]; intros dc Hdv Hdc; [done|].
apply wf_dict in Hdv as [Hnd Hall].
apply NoDup_cons in Hnd as [_ Hnd]. apply Forall_cons in Hall as [Hv Hall].
cbn [fold_left]. apply IH; [by apply wf_dict|].
destruct (dict_mem k dc); [done|]. by apply wf_dict_set.
Qed.

Lemma wf_merge_item m k v :
wf (VDict m) -> wf v -> wf (VDict (merge_item m (k, v))).
Proof.
intros Hm Hv. unfold merge_item.
destruct (dict_get k m) as [cur|] eqn:Hk; [|by apply wf_dict_set].
destruct cur; try exact Hm. destruct v; try exact Hm.
apply wf_dict_set; [exact Hm|]. apply wf_merge_section; [exact Hv|].
exact (wf_dict_get _ _ _ Hm Hk).
Qed.

Lemma wf_merge items m :
wf (VDict items) -> wf (VDict m) -> wf (VDict (fold_left merge_item items m)).
Proof.
revert m. induction items as [|[k v] items IH]; intros m Hi Hm; [done|].
apply wf_dict in Hi as [Hnd Hall].
apply NoDup_cons in Hnd as [_ Hnd]. apply Forall_cons in Hall as [Hv Hall].
cbn [fold_left]. apply IH; [by apply wf_dict|]. by apply wf_merge_item.
Qed.

Lemma wf_default_config : wf (VDict default_config).
Proof. by vm_compute. Qed.

End WellFormed.

(** ** Loading an existing file *)

(** ** The defaults stay in place *)

Section InPlace.
Import Config.
Implicit Types (k f last : string) (v : value) (d m dv dc : dict).









Lemma default_config_in_place : defaults_in_place (VDict default_config) = true.
Proof. reflexivity. Qed.
End InPlace.

Section Load.
Import Config.
Variable json_dumps : value -> string.
Variable json_loads : string -> option value.
Implicit Types (s : state) (p : string) (doc v : value) (m d : dict).

Local Abbreviation new := (Config.new json_dumps json_loads).

(** C1, as amended.  When the file parses as a JSON object [m], construction
returns a store whose document [m'] is [m] merged with the defaults, one
level deep, with the disk and the console untouched:
- a default section missing from [m] is inserted wholesale;
- a default section that is a mapping in [m] keeps every field it has,
with its on-disk value, and receives the default fields it lacks;
- a default section that is not a mapping in [m] is kept as it is and
receives nothing;
- every other top-level key of [m] keeps its value, and no other key
appears;
- hence every row of the schema table whose section is missing or a
mapping in [m] resolves in [m'], to the on-disk value when the file
has the field and to the default otherwise. *)
Theorem load_merges_defaults s p text m :
p <> "" ->
read_text p (fs s) = Ok text ->
json_loads text = Some (VDict m) ->
exists m',
new (Some p) s = (Ok tt, store_at p (VDict m') (fs s) (stdout s) (home s)) /\
(forall sec fields,
 dict_get sec default_config = Some (VDict fields) ->
 match dict_get sec m with
 | None => dict_get sec m' = Some (VDict fields)
 | Some (VDict d) =>
 exists d', dict_get sec m' = Some (VDict d') /\
 forall f, dict_get f d' =
       match dict_get f d with
       | Some v => Some v
       | None => dict_get f fields
       end
 | Some other => dict_get sec m' = Some other
 end) /\
(forall k, dict_get k default_config = None -> dict_get k m' = dict_get k m) /\
(forall row sec f,
 row ∈ schema_table ->
 split_dot row.1 = [sec; f] ->
 (forall other, dict_get sec m = Some other -> isinstance_dict other = true) ->
 lookup_path [sec; f] (VDict m') =
 Some (match lookup_path [sec; f] (VDict m) with
 | Some v => v
 | None => row.2
 end)).
Proof.
intros Hp Hr Hl. exists (fold_left merge_item default_config m).
assert (forall sec fields,
dict_get sec default_config = Some (VDict fields) ->
match dict_get sec m with
| None => dict_get sec (fold_left merge_item default_config m) = Some (VDict fields)
| Some (VDict d) =>
exists d', dict_get sec (fold_left merge_item default_config m) = Some (VDict d') /\
forall f, dict_get f d' =
    match dict_get f d with
    | Some v => Some v
    | None => dict_get f fields
    end
| Some other => dict_get sec (fold_left merge_item default_config m) = Some other
end) as Hsec.
{ intros sec fields Hdef.
rewrite (merge_get default_config m sec default_config_NoDup), Hdef.
destruct (dict_get sec m) as [[]|]; try done.
eexists. split; [done|]. intros f. apply merge_section_get. }
split_and!.
- rewrite (new_run _ _ s p Hp).
destruct (read_text_ok _ _ _ Hr) as (_ & _ & ->).
by rewrite Hr, Hl, merge_loop_dict.
- exact Hsec.
- intros k Hk. by rewrite (merge_get default_config m k default_config_NoDup), Hk.
- intros row sec f Hrow Hsplit Hmap.
assert (exists fields,
dict_get sec default_config = Some (VDict fields) /\
dict_get f fields = Some row.2) as (fields & Hdef & Hf).
{ repeat (apply elem_of_cons in Hrow as [->|Hrow];
[injection Hsplit as <- <-; by eexists|]).
by apply elem_of_nil in Hrow. }
specialize (Hsec sec fields Hdef). cbn [lookup_path].
destruct (dict_get sec m) as [cur|] eqn:Hcur.
+ specialize (Hmap cur eq_refl). destruct cur; try done.
destruct Hsec as (d' & -> & Hd'). rewrite Hd'.
destruct (dict_get f d); [done | by rewrite Hf].
+ by rewrite Hsec, Hf.
Qed.





(** The document of a store that construction returned is a mapping. *)
Lemma new_ok_dict s p s1 :
  p <> "" ->
  new (Some p) s = (Ok tt, s1) ->
  exists d, config_data (self s1) = Some (VDict d).
Proof.
  intros Hp. rewrite (new_run _ _ s p Hp).
  destruct (path_exists p (fs s)).
  - destruct (read_text p (fs s)) as [text|e].
    + destruct (json_loads text) as [loaded|] eqn:Hl; [|intros [= <-]; by eexists].
      destruct (isinstance_dict loaded) eqn:Hd.
      * destruct loaded; try done. rewrite merge_loop_dict. intros [= <-]. by eexists.
      * by rewrite merge_loop_not_dict.
    + destruct e; try done; intros [= <-]; by eexists.
  - destruct (write_text p _ (fs s)) as [[[]|e] disk']; intros [= <-]; by eexists.
Qed.



End Load.

(** ** Directories *)

Section Directories.
Implicit Types (p q : string) (disk : filesystem).

Lemma before_last_slash_length p d :
before_last_slash p = Some d -> String.length d < String.length p.
Proof.
revert d. induction p as [|c p IH]; intros d; simpl; [done|].
destruct (before_last_slash p) as [d'|].
- intros [= <-]. simpl. specialize (IH d' eq_refl). lia.
- destruct (Ascii.eqb c "/"); [|done]. intros [= <-]. simpl. lia.
Qed.

(** A parent is strictly closer to the top, unless the path is its own
parent. *)
Lemma path_rank_parent p :
path_parent p <> p -> path_rank (path_parent p) < path_rank p.
Proof.
unfold path_parent, path_rank.
destruct (before_last_slash p) as [d|] eqn:Hd.
- pose proof (before_last_slash_length _ _ Hd) as Hlen.
destruct d as [|c d].
+ intros Hne. simpl.
destruct (String.eqb_spec p ".") as [->|]; [done|].
destruct (String.eqb_spec p "/") as [->|]; [done|]. simpl. lia.
+ intros _.
destruct (String.eqb_spec p ".") as [->|]; [done|].
destruct (String.eqb_spec p "/") as [->|]; [done|].
cbn [orb]. destruct (_ || _); simpl in *; lia.
- simpl. intros Hne.
destruct (String.eqb_spec p ".") as [->|]; [done|].
destruct (String.eqb_spec p "/") as [->|]; [done|]. simpl. lia.
Qed.

Lemma mkdir_parents_unfold n q disk :
mkdir_parents n q disk =
if bool_decide (q ∈ dirs disk) then (Ok tt, disk)
else if bool_decide (is_Some (files disk !! q)) then
(Raise (OSError ("[Errno 17] File exists: '" +:+ q +:+ "'")), disk)
else if bool_decide (path_parent q ∈ dirs disk) then mkdir_last q disk
else if String.eqb (path_parent q) q then (Raise (enoent q), disk)
else match n with
 | 0 => (Raise (enoent q), disk)
 | S n' =>
 match mkdir_parents n' (path_parent q) disk with
 | (Ok _, disk1) => mkdir_last q disk1
 | (Raise e, disk1) => (Raise e, disk1)
 end
 end.
Proof. by destruct n. Qed.


(** The last step either makes (or finds) the directory, or fails with an
I/O error and changes nothing. *)
Lemma mkdir_last_cases q disk r disk1 :
mkdir_last q disk = (r, disk1) ->
(r = Ok tt /\ q ∈ dirs disk1 /\ files disk1 = files disk /\
 unreadable disk1 = unreadable disk /\ unwritable disk1 = unwritable disk /\
 forall x, x ∈ dirs disk1 <-> x = q \/ x ∈ dirs disk) \/
(exists msg, r = Raise (OSError msg) /\ disk1 = disk /\ q ∉ dirs disk).
Proof.
unfold mkdir_last, mkdir_exist_ok. repeat case_bool_decide; intros [= <- <-].
- left. split_and!; try done. intros x. split; [by right | by intros [->|]].
- right. by eexists.
- right. by eexists.
- left. split_and!; try done; simpl; [set_solver|]. intros x. set_solver.
Qed.

(** What [mkdir_parents] can change: it only adds directories, none of them
farther from the top than the one asked for; when it returns the
directory is there, and when it raises it raises an I/O error. *)
Lemma mkdir_parents_frame n q disk r disk1 :
mkdir_parents n q disk = (r, disk1) ->
files disk1 = files disk /\
unreadable disk1 = unreadable disk /\
unwritable disk1 = unwritable disk /\
(forall x, x ∈ dirs disk1 -> x ∈ dirs disk \/ path_rank x <= path_rank q) /\
(forall x, x ∈ dirs disk -> x ∈ dirs disk1) /\
(r = Ok tt -> q ∈ dirs disk1) /\
(forall e, r = Raise e -> exists msg, e = OSError msg).
Proof.
revert q disk r disk1. induction n as [|n IH]; intros q disk r disk1.
all: rewrite mkdir_parents_unfold.
all: case_bool_decide as Hq; [intros [= <- <-]; split_and!; eauto; done|].
all: case_bool_decide as Hf; [intros [= <- <-]; split_and!; eauto; try done;
                  intros e [= <-]; by eexists|].
all: case_bool_decide as Hpar;
[intros [(-> & Hin & Hfl & Hrd & Hwr & Hd)|(msg & -> & -> & _)]%mkdir_last_cases;
 split_and!; eauto; try done;
 [ intros x [->|]%Hd; [right; lia | by left]
 | intros x Hx; apply Hd; by right
 | intros e [= <-]; by eexists ]|].
all: destruct (String.eqb_spec (path_parent q) q) as [Heq|Hne];
 [intros [= <- <-]; split_and!; eauto; try done; intros e [= <-]; by eexists|].
- intros [= <- <-]; split_and!; eauto; try done. intros e [= <-]; by eexists.
- destruct (mkdir_parents n (path_parent q) disk) as [r0 d0] eqn:Hrec.
apply IH in Hrec as (Hfl & Hrd & Hwr & Hnew & Hold & Hok & Herr).
pose proof (path_rank_parent q Hne) as Hrank.
assert (forall x, x ∈ dirs d0 -> x ∈ dirs disk \/ path_rank x <= path_rank q) as Hnew'.
{ intros x Hx. destruct (Hnew x Hx); [by left | right; lia]. }
destruct r0 as [[]|e].
+ intros [(-> & Hin & Hfl1 & Hrd1 & Hwr1 & Hd)|(msg & -> & -> & _)]%mkdir_last_cases.
* split_and!; try congruence; try done.
-- intros x [->|Hx]%Hd; [right; lia | by apply Hnew'].
-- intros x Hx. apply Hd. right. by apply Hold.
* split_and!; try done; intros e [= <-]; by eexists.
+ intros [= <- <-]. split_and!; try done; intros e' [= <-]; by apply Herr.
Qed.


(** The fuel [path_rank q] is enough: more fuel gives the same result, so
running out of fuel is never the reason of a failure. *)
Lemma mkdir_parents_fuel n m q disk :
path_rank q <= n -> path_rank q <= m ->
mkdir_parents n q disk = mkdir_parents m q disk.
Proof.
revert m q. induction n as [|n IH]; intros m q Hn Hm.
all: rewrite (mkdir_parents_unfold _ q), (mkdir_parents_unfold m q).
all: repeat case_bool_decide; try done.
all: destruct (String.eqb_spec (path_parent q) q) as [|Hne]; [done|].
all: pose proof (path_rank_parent q Hne); try lia.
destruct m as [|m]; [lia|]. by rewrite (IH m) by lia.
Qed.

End Directories.

(** ** logging: the sinks after a call *)

Section LoggingFacts.
Import Logging.
Variable valid_format : string -> bool.
Implicit Types (s : state) (h : handler) (hs : list handler).

Local Abbreviation setup_logging := (Logging.setup_logging valid_format).
Local Arguments Nat.eqb : simpl never.

Lemma bind_ok {S A B} (m : M S A) (k : A -> M S B) (s s' : S) (a : A) :
m s = (Ok a, s') -> bind m k s = k a s'.
Proof. unfold bind. by intros ->. Qed.

(** The loop over a copy of the handler list removes every handler. *)
Lemma remove_each_handler hs s :
root_handlers s = hs ->
for_each hs removeHandler s = (Ok tt, with_root_handlers [] s).
Proof.
revert s. induction hs as [|h hs IH]; intros s Hs.
- simpl. unfold ret. f_equal. destruct s; simpl in *; by subst.
- cbn [for_each].
rewrite (bind_ok _ _ s (with_root_handlers hs s) tt).
+ by rewrite (IH (with_root_handlers hs s)).
+ unfold removeHandler, modify, handler_in. rewrite Hs. simpl.
by rewrite Nat.eqb_refl.
Qed.

Lemma mkdir_parents_raise n q disk e disk1 :
mkdir_parents n q disk = (Raise e, disk1) -> exists msg, e = OSError msg.
Proof. intros H. by eapply mkdir_parents_frame. Qed.

Lemma open_append_raise q disk e :
open_append q disk = Raise e -> exists msg, e = OSError msg.
Proof.
unfold open_append. repeat case_bool_decide; try (intros [= <-]; by eexists).
by destruct (files disk !! q).
Qed.

(** One call, from any state, with a template the formatter accepts. *)
Lemma setup_logging_run s level log_file format_string :
valid_format (default default_format format_string) = true ->
exists s1,
setup_logging level log_file format_string s = (Ok tt, s1) /\
environ s1 = environ s /\
sink_config s1 = expected_sinks level log_file format_string s /\
fs s1 = match log_file with
| Some path =>
  if truthy (VStr path) then (file_sink_attempt path (fs s)).2 else fs s
| None => fs s
end.
Proof.
intros Hvalid. unfold Logging.setup_logging.
rewrite (bind_ok _ _ s s (level_name level (environ s)))
by (unfold level_name, gets, ret; by destruct level as [l|]; [destruct (truthy (VStr l))|]).
set (n := level_number level (environ s)).
assert (exists sA out,
sA = with_stdout out s /\
(match logging_int_attr (level_name level (environ s)) with
 | Some n => ret n
 | None =>
 let* _ := print ("Invalid log level: " +:+ level_name level (environ s)
            +:+ ". Using INFO.") in ret INFO
 end) s = (Ok n, sA)) as (sA & out & HsA & Hnum).
{ unfold n, level_number.
destruct (logging_int_attr _); simpl.
- exists s, (stdout s). split; [by destruct s|done].
- by eexists _, _. }
rewrite (bind_ok _ _ s sA n Hnum).
rewrite (bind_ok _ _ sA sA (default default_format format_string))
by (unfold Formatter; by rewrite Hvalid).
rewrite (bind_ok _ _ sA (with_root_level n sA) tt) by done.
rewrite (bind_ok _ _ _ (with_root_level n sA) (root_handlers sA)) by done.
rewrite (bind_ok _ _ _ _ tt
 (remove_each_handler (root_handlers sA) (with_root_level n sA) eq_refl)).
subst sA. clear Hnum. unfold expected_sinks, file_sink_attempt. fold n.
generalize dependent n. intros n.
remember (default default_format format_string) as f eqn:Hf. clear Hf Hvalid.
unfold bind, try_except, new_handler, addHandler, modify, os_mkdir_parents,
os_open_append, print, logger_setLevel, ret, sink_config.
destruct s as [lvl hs lg nx disk out0 env].
destruct log_file as [path|]; [destruct (truthy (VStr path)) eqn:Htr|].
- remember (path_rank (path_parent path)) as fuel eqn:Hfuel.
remember (path_parent path) as par eqn:Hpar. clear Hfuel Hpar.
simpl.
destruct (mkdir_parents fuel par disk) as [[[]|e] disk1] eqn:Hmk; simpl.
+ destruct (open_append path disk1) as [disk2|e] eqn:Hop; simpl.
* rewrite (proj2 (Nat.eqb_neq (S nx) nx)) by lia. simpl. by eexists.
* destruct (open_append_raise _ _ _ Hop) as [msg ->]. simpl. by eexists.
+ destruct (mkdir_parents_raise _ _ _ _ _ Hmk) as [msg ->]. simpl. by eexists.
- simpl. by eexists.
- simpl. by eexists.
Qed.

(** A template the formatter rejects makes the call raise before it touches
the handlers. *)
Lemma setup_logging_bad_template s level log_file template :
valid_format template = false ->
exists e s',
setup_logging level log_file (Some template) s = (Raise (ValueError e), s') /\
root_handlers s' = root_handlers s.
Proof.
intros Hbad. unfold Logging.setup_logging.
rewrite (bind_ok _ _ s s (level_name level (environ s)))
by (unfold level_name, gets, ret; by destruct level as [l|]; [destruct (truthy (VStr l))|]).
unfold bind at 1.
destruct (logging_int_attr (level_name level (environ s))); simpl.
all: unfold bind, Formatter; simpl; rewrite Hbad; by eexists _, _.
Qed.

End LoggingFacts.

(** ** The reference codec round-trips *)

Section RefJsonFacts.
Import RefJson.
Implicit Types (c : ascii) (s t rest : string) (v : value) (n : Z).

Lemma append_cons c s t : String c s +:+ t = String c (s +:+ t).
Proof. reflexivity. Qed.

Lemma append_nil s : "" +:+ s = s.
Proof. reflexivity. Qed.

Lemma append_assoc s t u : (s +:+ t) +:+ u = s +:+ (t +:+ u).
Proof.
induction s as [|c s IH]; [done|]. rewrite !append_cons. by f_equal.
Qed.

Lemma length_append s t : String.length (s +:+ t) = String.length s + String.length t.
Proof.
induction s as [|c s IH]; [done|]. rewrite append_cons. simpl. by f_equal.
Qed.

(** *** White space *)

Lemma skip_ws_idem s : skip_ws (skip_ws s) = skip_ws s.
Proof.
induction s as [|c s IH]; simpl; [done|].
destruct (is_ws c) eqn:E; [done|]. simpl. by rewrite E.
Qed.

Lemma skip_ws_spaces k s : skip_ws (spaces k +:+ s) = skip_ws s.
Proof.
induction k as [|k IH]; [done|]. cbn [spaces]. rewrite append_cons.
cbn [skip_ws]. exact IH.
Qed.

Lemma skip_ws_break ind s : skip_ws (break ind +:+ s) = skip_ws s.
Proof. unfold break. rewrite append_cons. cbn [skip_ws]. apply skip_ws_spaces. Qed.

(** *** String literals *)

Lemma parse_chars_escape_char c t :
parse_chars (escape_char c +:+ t) =
match parse_chars t with
| Some (str, rest) => Some (String c str, rest)
| None => None
end.
Proof.
destruct c as [[] [] [] [] [] [] [] []]; reflexivity.
Qed.

Lemma parse_chars_escape s rest :
parse_chars (escape s +:+ String quote rest) = Some (s, rest).
Proof.
induction s as [|c s IH]; [done|].
cbn [escape]. by rewrite append_assoc, parse_chars_escape_char, IH.
Qed.

Lemma parse_dump_string s rest :
exists t, dump_string s +:+ rest = String quote t /\ parse_chars t = Some (s, rest).
Proof.
unfold dump_string. rewrite append_cons. eexists. split; [reflexivity|].
by rewrite append_assoc, append_cons, append_nil, parse_chars_escape.
Qed.

(** *** Integers *)

Lemma all_number_uint d : all_number (NilEmpty.string_of_uint d) = true.
Proof. induction d; simpl; done. Qed.

Lemma all_number_dump_int n : all_number (dump_int n) = true.
Proof.
unfold dump_int, NilZero.string_of_int, NilZero.string_of_uint.
destruct (Z.to_int n) as [d|d]; destruct d; simpl; try done;
apply all_number_uint.
Qed.

Lemma dump_int_nonempty n :
exists c s, dump_int n = String c s /\ is_number_char c = true.
Proof.
pose proof (all_number_dump_int n) as H.
unfold dump_int, NilZero.string_of_int, NilZero.string_of_uint in *.
destruct (Z.to_int n) as [d|d]; destruct d; simpl in *;
try (by eexists _, _); apply andb_true_iff in H as [H _]; by eexists _, _.
Qed.

Lemma span_number_append tok rest :
all_number tok = true -> ends_number rest = true ->
span_number (tok +:+ rest) = (tok, rest).
Proof.
intros Htok Hrest. induction tok as [|c tok IH].
- rewrite append_nil. destruct rest as [|c rest]; [done|]. simpl in *.
by destruct (is_number_char c).
- rewrite append_cons. simpl in *. apply andb_true_iff in Htok as [-> Htok].
by rewrite IH.
Qed.

Lemma parse_dump_int n : parse_int (dump_int n) = Some n.
Proof.
unfold parse_int, dump_int.
rewrite NilZero.isi.
- by rewrite DecimalZ.of_to, String.eqb_refl.
- destruct n; simpl; try done. intros [= H]. by apply DecimalPos.Unsigned.to_uint_nonnil in H.
- destruct n; simpl; try done. intros [= H]. by apply DecimalPos.Unsigned.to_uint_nonnil in H.
Qed.

(** *** Values *)

(** Induction on values, with the hypothesis for every element of a list
and every member of a dict. *)
Lemma value_ind' (P : value -> Prop) :
P VNone -> (forall b, P (VBool b)) -> (forall n, P (VInt n)) ->
(forall s, P (VStr s)) ->
(forall l, Forall P l -> P (VList l)) ->
(forall d, Forall (fun kv => P kv.2) d -> P (VDict d)) ->
forall v, P v.
Proof.
intros HN HB HI HS HL HD.
fix IH 1. intros [| b | n | s | l | d]; [done..| |].
- apply HL. induction l as [|x l IHl]; constructor; [apply IH | exact IHl].
- apply HD. induction d as [|[k x] d IHd]; constructor; [apply IH | exact IHd].
Qed.

Lemma wf_list l : wf (VList l) <-> Forall wf l.
Proof.
unfold wf. simpl. induction l as [|x l IH]; simpl; [by split|].
by rewrite andb_true_iff, Forall_cons, IH.
Qed.

Lemma dump_list ind x l :
dump ind (VList (x :: l)) = "[" +:+ break (S ind) +:+ dump_elems ind (x :: l).
Proof. reflexivity. Qed.

Lemma dump_dict ind kx d :
dump ind (VDict (kx :: d)) = "{" +:+ break (S ind) +:+ dump_members ind (kx :: d).
Proof. reflexivity. Qed.

Lemma dump_elems_cons ind x l :
dump_elems ind (x :: l) =
dump (S ind) x +:+
match l with
| [] => break ind +:+ "]"
| _ => "," +:+ break (S ind) +:+ dump_elems ind l
end.
Proof. by destruct l. Qed.

Lemma dump_members_cons ind k x d :
dump_members ind ((k, x) :: d) =
dump_string k +:+ ": " +:+ dump (S ind) x +:+
match d with
| [] => break ind +:+ "}"
| _ => "," +:+ break (S ind) +:+ dump_members ind d
end.
Proof. by destruct d. Qed.

(** A number character is none of the characters the parser tests for
before it tries a number. *)
Lemma number_char_dispatch c :
is_number_char c = true ->
is_ws c = false /\ Ascii.eqb c "n" = false /\ Ascii.eqb c "t" = false /\
Ascii.eqb c "f" = false /\ Ascii.eqb c quote = false /\
Ascii.eqb c "[" = false /\ Ascii.eqb c "{" = false /\
Ascii.eqb c "]" = false /\ Ascii.eqb c "}" = false.
Proof.
destruct c as [[] [] [] [] [] [] [] []]; intros H; vm_compute in H;
try discriminate H; by vm_compute.
Qed.

(** How a written value starts: not with white space and not with a closing
bracket. *)
Lemma dump_first ind v t :
exists c r, dump ind v +:+ t = String c r /\ is_ws c = false /\
  Ascii.eqb c "]" = false /\ Ascii.eqb c "}" = false.
Proof.
destruct v as [| [] | n | s | [|x l] | [|kx d]]; try (by eexists _, _).
destruct (dump_int_nonempty n) as (c & r & Hd & Hc). simpl. rewrite Hd.
apply number_char_dispatch in Hc as (? & _ & _ & _ & _ & _ & _ & ? & ?).
by eexists _, _.
Qed.

Lemma parse_value_skip fuel s : parse_value fuel (skip_ws s) = parse_value fuel s.
Proof. destruct fuel; [done|]. cbn [parse_value]. by rewrite skip_ws_idem. Qed.

Lemma parse_elems_skip fuel s : parse_elems fuel (skip_ws s) = parse_elems fuel s.
Proof. destruct fuel; [done|]. cbn [parse_elems]. by rewrite parse_value_skip. Qed.

Lemma parse_members_skip fuel s : parse_members fuel (skip_ws s) = parse_members fuel s.
Proof. destruct fuel; [done|]. cbn [parse_members]. by rewrite skip_ws_idem. Qed.

(** Decide the tests on characters that are known. *)
Ltac eval_chars :=
repeat match goal with
| |- context [is_ws ?c] =>
let b := eval vm_compute in (is_ws c) in
match b with true => idtac | false => idtac end;
change (is_ws c) with b
| |- context [Ascii.eqb ?a ?c] =>
let b := eval vm_compute in (Ascii.eqb a c) in
match b with true => idtac | false => idtac end;
change (Ascii.eqb a c) with b
end; cbv match.

Lemma ends_number_break ind t : ends_number (break ind +:+ t) = true.
Proof. done. Qed.

Lemma parse_dump_elems ind l fuel rest :
l <> [] -> Forall round_trips l -> Forall wf l ->
fold_right (fun x acc => S (size x + acc)) 0 l <= fuel ->
parse_elems fuel (dump_elems ind l +:+ rest) = Some (l, rest).
Proof.
revert fuel. induction l as [|x l IH]; intros fuel Hne Hrt Hwf Hfuel; [done|].
apply Forall_cons in Hrt as [Hx Hrt]. apply Forall_cons in Hwf as [Hwx Hwf].
simpl in Hfuel. destruct fuel as [|fuel]; [lia|].
rewrite dump_elems_cons, append_assoc. cbn [parse_elems].
rewrite (Hx (S ind) fuel) by (done || lia || by destruct l).
destruct l as [|y l]; cbv match.
- rewrite append_assoc, skip_ws_break. by rewrite append_cons.
- rewrite !append_assoc, append_cons, append_nil.
cbn [skip_ws]. eval_chars.
rewrite <-parse_elems_skip, skip_ws_break, parse_elems_skip.
rewrite IH; [done..|]. simpl in *. lia.
Qed.

Lemma parse_dump_members ind d fuel rest :
d <> [] -> Forall (fun kv => round_trips kv.2) d -> Forall (fun kv => wf kv.2) d ->
fold_right (fun '(_, x) acc => S (size x + acc)) 0 d <= fuel ->
parse_members fuel (dump_members ind d +:+ rest) = Some (d, rest).
Proof.
revert fuel. induction d as [|[k x] d IH]; intros fuel Hne Hrt Hwf Hfuel; [done|].
apply Forall_cons in Hrt as [Hx Hrt]. apply Forall_cons in Hwf as [Hwx Hwf].
simpl in Hfuel, Hx, Hwx. destruct fuel as [|fuel]; [lia|].
rewrite dump_members_cons, !append_assoc. cbn [parse_members].
destruct (parse_dump_string k (": " +:+ dump (S ind) x +:+
match d with
| [] => break ind +:+ "}"
| _ :: _ => "," +:+ break (S ind) +:+ dump_members ind d
end +:+ rest)) as (t & Ht & Hparse).
rewrite Ht. cbn [skip_ws]. eval_chars. rewrite Hparse.
rewrite !append_cons, append_nil. cbn [skip_ws]. eval_chars.
rewrite <-parse_value_skip. cbn [skip_ws]. eval_chars. rewrite parse_value_skip.
rewrite (Hx (S ind) fuel) by (done || lia || by destruct d).
destruct d as [|[k' y] d]; cbv match.
- rewrite ?append_assoc, skip_ws_break. rewrite ?append_cons. cbn [skip_ws]. by eval_chars.
- repeat rewrite ?append_assoc, ?append_cons, ?append_nil.
cbn [skip_ws]. eval_chars.
rewrite <-parse_members_skip, skip_ws_break, parse_members_skip.
rewrite IH; [done..|]. simpl in *. lia.
Qed.

(** Members with distinct keys make the dict they were written from. *)
Lemma dict_of_pairs_NoDup d : NoDup (map fst d) -> dict_of_pairs d = d.
Proof.
unfold dict_of_pairs. intros Hnd.
assert (forall acc,
(forall k, k ∈ map fst acc -> k ∉ map fst d) ->
fold_left (fun d0 '(k, v) => dict_set k v d0) d acc = acc ++ d) as H.
{ induction d as [|[k v] d IH]; intros acc Hdisj; [by rewrite app_nil_r|].
apply NoDup_cons in Hnd as [Hk Hnd]. cbn [fold_left].
assert (dict_set k v acc = acc ++ [(k, v)]) as ->.
{ assert (k ∉ map fst acc) as Hacc.
{ intros Hin. apply (Hdisj k Hin). simpl. by left. }
clear -Hacc. induction acc as [|[k' v'] acc IHacc]; [done|].
simpl in *. apply not_elem_of_cons in Hacc as [Hne Hacc].
destruct (String.eqb_spec k k'); [done|]. by rewrite IHacc. }
rewrite IH; [by rewrite <-app_assoc|done|].
intros k0. rewrite map_app. intros [Hin| ->%list_elem_of_singleton]%elem_of_app; [|done].
intros Hin'. apply (Hdisj k0 Hin). simpl. by right. }
apply (H []). intros k Hk. by apply elem_of_nil in Hk.
Qed.

(** Every well-formed value, written and read back, is itself. *)
Lemma parse_dump v : round_trips v.
Proof.
induction v as [| b | n | s | l IHl | d IHd] using value_ind';
intros ind fuel rest Hwf Hfuel Hrest;
(destruct fuel as [|fuel]; [simpl in Hfuel; lia|]).
- done.
- by destruct b.
- destruct (dump_int_nonempty n) as (c & r & Hd & Hc).
pose proof (number_char_dispatch c Hc) as (Hws & Hn & Ht & Hf & Hq & Hl & Hb & _).
cbn [dump parse_value]. rewrite Hd, append_cons. cbn [skip_ws].
rewrite Hws, Hn, Ht, Hf, Hq, Hl, Hb.
rewrite <-append_cons, <-Hd, span_number_append
by (done || apply all_number_dump_int).
by rewrite parse_dump_int.
- cbn [dump parse_value].
destruct (parse_dump_string s rest) as (t & Ht & Hparse).
rewrite Ht. cbn [skip_ws]. eval_chars. by rewrite Hparse.
- destruct l as [|x l]; [done|].
rewrite dump_list, !append_assoc, append_cons, append_nil.
assert (exists c r, dump_elems ind (x :: l) +:+ rest = String c r /\
  is_ws c = false /\ Ascii.eqb c "]" = false) as (c & r & Hd & Hws & Hnb).
{ rewrite dump_elems_cons, append_assoc.
destruct (dump_first (S ind) x
(match l with
 | [] => break ind +:+ "]"
 | _ :: _ => "," +:+ break (S ind) +:+ dump_elems ind l
 end +:+ rest)) as (c & r & Hd & Hws & Hnb & _).
by exists c, r. }
cbn [parse_value skip_ws]. eval_chars. rewrite skip_ws_break.
rewrite Hd. cbn [skip_ws]. rewrite Hws, Hnb. rewrite <-Hd.
rewrite parse_dump_elems; [done|done|done|by apply wf_list|].
simpl in Hfuel |- *. lia.
- destruct d as [|[k x] d]; [done|].
rewrite dump_dict, !append_assoc, append_cons, append_nil.
apply wf_dict in Hwf as [Hnd Hwf].
assert (exists r, dump_members ind ((k, x) :: d) +:+ rest = String quote r)
as (r & Hd).
{ rewrite dump_members_cons. unfold dump_string at 1.
rewrite !append_assoc, append_cons. by eexists. }
cbn [parse_value skip_ws]. eval_chars. rewrite skip_ws_break.
rewrite Hd. cbn [skip_ws]. eval_chars. rewrite <-Hd.
rewrite parse_dump_members; [|done|done|done|simpl in Hfuel |- *; lia].
simpl. by rewrite dict_of_pairs_NoDup.
Qed.

Lemma append_nil_r s : s +:+ "" = s.
Proof. induction s as [|c s IH]; [done|]. by rewrite append_cons, IH. Qed.

Lemma length_break ind : 1 <= String.length (break ind).
Proof. simpl. lia. Qed.

(** The text of a value is at least as long as the fuel it needs. *)
Lemma size_dump v ind : size v <= String.length (dump ind v).
Proof.
revert ind. induction v as [| b | n | s | l IHl | d IHd] using value_ind'; intros ind.
- simpl. lia.
- destruct b; simpl; lia.
- destruct (dump_int_nonempty n) as (c & r & Hd & _). simpl. rewrite Hd. simpl. lia.
- simpl. lia.
- destruct l as [|x l]; [simpl; lia|].
rewrite dump_list, !length_append.
assert (fold_right (fun x acc => S (size x + acc)) 0 (x :: l)
<= String.length (dump_elems ind (x :: l))) as H.
{ clear -IHl. induction IHl as [|y l' Hy _ IH]; [simpl; lia|].
rewrite dump_elems_cons, length_append. cbn [fold_right].
specialize (Hy (S ind)). destruct l'.
- rewrite length_append. simpl. lia.
- rewrite !length_append. simpl in IH |- *. lia. }
simpl in H |- *. lia.
- destruct d as [|kx d]; [simpl; lia|].
rewrite dump_dict, !length_append.
assert (fold_right (fun '(_, x) acc => S (size x + acc)) 0 (kx :: d)
<= String.length (dump_members ind (kx :: d))) as H.
{ clear -IHd. induction IHd as [|[k y] d' Hy _ IH]; [simpl; lia|].
rewrite dump_members_cons, !length_append. cbn [fold_right].
specialize (Hy (S ind)). simpl in Hy. destruct d'.
- rewrite length_append. simpl. lia.
- rewrite !length_append. simpl in IH |- *. lia. }
simpl in H |- *. lia.
Qed.

(** The round-trip law of the codec, on well-formed values. *)
Lemma loads_dumps v : wf v -> loads (dumps v) = Some v.
Proof.
intros Hwf. unfold loads, dumps.
rewrite <-(append_nil_r (dump 0 v)) at 2.
rewrite parse_dump; [done|done| |done].
pose proof (size_dump v 0). lia.
Qed.

Lemma wf_dict_of_pairs d : Forall (fun kv => wf kv.2) d -> wf (VDict (dict_of_pairs d)).
Proof.
unfold dict_of_pairs. intros Hall.
assert (forall acc, wf (VDict acc) ->
wf (VDict (fold_left (fun d0 '(k, v) => dict_set k v d0) d acc))) as H.
{ induction Hall as [|[k v] d Hv _ IH]; intros acc Hacc; [done|].
cbn [fold_left]. apply IH. by apply wf_dict_set. }
by apply H.
Qed.

(** Whatever the parser reads is well formed. *)
Lemma parse_wf fuel :
(forall s v r, parse_value fuel s = Some (v, r) -> wf v) /\
(forall s l r, parse_elems fuel s = Some (l, r) -> Forall wf l) /\
(forall s d r, parse_members fuel s = Some (d, r) -> Forall (fun kv => wf kv.2) d).
Proof.
induction fuel as [|fuel (IHv & IHe & IHm)]; [done|].
split_and!.
- intros s v r. cbn [parse_value].
repeat (case_match; try done); unfold option_map;
repeat (case_match; try done); intros; simplify_eq; try done.
+ apply wf_list. eauto.
+ apply wf_dict_of_pairs. eauto.
- intros s l r. cbn [parse_elems].
repeat (case_match; try done); unfold option_map;
repeat (case_match; try done); intros; simplify_eq.
+ constructor; eauto.
+ repeat constructor; eauto.
- intros s d r. cbn [parse_members].
repeat (case_match; try done); unfold option_map;
repeat (case_match; try done); intros; simplify_eq.
+ constructor; simpl; eauto.
+ repeat constructor; simpl; eauto.
Qed.

Lemma loads_wf t v : loads t = Some v -> wf v.
Proof.
unfold loads. destruct (parse_value _ t) as [[v' r]|] eqn:Hp; [|done].
destruct (skip_ws r); [|done]. intros [= <-].
by eapply (proj1 (parse_wf _)).
Qed.

End RefJsonFacts.

(** ** The claims on concrete stores

    The statements above are about any codec and any formatter check.  Here
    they are run with the reference codec on small disks. *)

Section Scenarios.
Import Config.

Local Abbreviation new := (Config.new RefJson.dumps RefJson.loads).
Local Abbreviation save_config := (Config.save_config RefJson.dumps).
Local Abbreviation setup_logging := (Logging.setup_logging has_field).

(** A file written before the [discord] section and the [gui.start_minimized]
field existed: both are filled in, and what the file has stays. *)
Lemma load_merges_defaults_witness :
let old := [("kick", VDict [("username", VStr "streamer")]);
    ("gui", VDict [("theme", VStr "light")]);
    ("extra", VInt 1)] in
let s := fresh (disk_of [("/c.json", RefJson.dumps (VDict old))] []) "/home/u" in
exists m',
new (Some "/c.json") s = (Ok tt, store_at "/c.json" (VDict m') (fs s) [] "/home/u") /\
lookup_path ["discord"; "client_id"] (VDict m') = Some (VStr "") /\
lookup_path ["discord"; "enable_rich_presence"] (VDict m') = Some (VBool true) /\
lookup_path ["kick"; "username"] (VDict m') = Some (VStr "streamer") /\
lookup_path ["gui"; "start_minimized"] (VDict m') = Some (VBool false) /\
dict_get "extra" m' = Some (VInt 1).
Proof.
intros old s.
destruct (load_merges_defaults RefJson.dumps RefJson.loads s "/c.json"
    (RefJson.dumps (VDict old)) old)
as (m' & Hnew & _ & Hother & Hrow).
- done.
- vm_compute. reflexivity.
- vm_compute. reflexivity.
- exists m'. split; [exact Hnew|].
split; [apply (Hrow ("discord.client_id", VStr "") "discord" "client_id");
  [set_solver | reflexivity | intros other; discriminate]|].
split; [apply (Hrow ("discord.enable_rich_presence", VBool true)
           "discord" "enable_rich_presence");
  [set_solver | reflexivity | intros other; discriminate]|].
split; [apply (Hrow ("kick.username", VStr "") "kick" "username");
  [set_solver | reflexivity | by intros other [= <-]]|].
split; [apply (Hrow ("gui.start_minimized", VBool false) "gui" "start_minimized");
  [set_solver | reflexivity | by intros other [= <-]]|].
apply (Hother "extra"). reflexivity.
Defined.

(** C1 as stated fails: the file [{"kick": 5}] is a JSON object, and the
store constructed from it has no [kick.username]: a section that is not
a mapping on disk receives no default field. *)
Lemma scalar_section_is_not_backfilled :
let text := RefJson.dumps (VDict [("kick", VInt 5)]) in
let s := fresh (disk_of [("/c.json", text)] []) "/home/u" in
let r := new (Some "/c.json") s in
RefJson.loads text = Some (VDict [("kick", VInt 5)]) /\
r.1 = Ok tt /\
config_data (self r.2) =
Some (VDict (("kick", VInt 5) :: tl default_config)) /\
(get "kick" VNone r.2).1 = Ok (VInt 5) /\
(get "kick.username" VNone r.2).1 = Ok VNone /\
(get "kick.username" (VStr "fallback") r.2).1 = Ok (VStr "fallback").
Proof. vm_compute. by repeat split. Qed.





(** A device that gives out after ten characters. *)
Lemma fresh_store_persists_defaults_witness :
let s := fresh (give_out "/c.json" 10 (disk_of [] [])) "/home/u" in
exists s',
  new (Some "/c.json") s = (Ok tt, s') /\
  config_data (self s') = Some (VDict default_config) /\
  Forall (fun row => get row.1 VNone s' = (Ok row.2, s')) schema_table /\
  (("/c.json" ∉ unwritable (fs s)) ->
   stdout s' = stdout s /\
   path_exists "/c.json" (fs s') = true /\
   exists text, files (fs s') !! "/c.json" = Some text /\
                RefJson.loads text = Some (VDict default_config)) /\
  ("/c.json" ∈ unwritable (fs s) ->
   (exists msg,
      stdout s' = stdout s ++ ["Error saving config to " +:+ "/c.json" +:+ ": " +:+ msg]) /\
   match partial (fs s) !! "/c.json" with
   | None => fs s' = fs s /\ path_exists "/c.json" (fs s') = false
   | Some n =>
       files (fs s') !! "/c.json"
       = Some (substring 0 n (RefJson.dumps (VDict default_config)))
   end).
Proof.
intros s.
apply (fresh_store_persists_defaults RefJson.dumps RefJson.loads s "/c.json").
- vm_compute. reflexivity.
- done.
- reflexivity.
- vm_compute. reflexivity.
Defined.

(** On a disk without failures the file is written in full; on the device
    above it holds the first ten characters of the text. *)
Example fresh_store_file_contents :
let good := new (Some "/c.json") (fresh (disk_of [] []) "/home/u") in
let short := new (Some "/c.json") (fresh (give_out "/c.json" 10 (disk_of [] [])) "/home/u") in
files (fs good.2) !! "/c.json" = Some (RefJson.dumps (VDict default_config)) /\
stdout good.2 = [] /\
files (fs short.2) !! "/c.json"
  = Some (substring 0 10 (RefJson.dumps (VDict default_config))) /\
stdout short.2
  = ["Error saving config to /c.json: [Errno 28] No space left on device"].
Proof. vm_compute. by repeat split. Qed.

(** C5 as stated fails: no file exists at the path and the file cannot be
created; construction returns, the store holds the defaults, and there
is still no file. *)
Lemma unwritable_path_leaves_no_file :
let s := fresh (deny_write "/ro/c.json" (disk_of [] [])) "/home/u" in
let r := new (Some "/ro/c.json") s in
path_exists "/ro/c.json" (fs s) = false /\
r.1 = Ok tt /\
config_data (self r.2) = Some (VDict default_config) /\
path_exists "/ro/c.json" (fs r.2) = false /\
files (fs r.2) !! "/ro/c.json" = None.
Proof. vm_compute. by repeat split. Qed.

(** [save_config({})] on a store holding the defaults writes the defaults. *)
Lemma save_config_empty_dict_writes_memory_witness :
let s := store_at "/c.json" (VDict default_config) (disk_of [] []) [] "/home/u" in
files (fs (save_config (VDict []) s).2) !! "/c.json"
= Some (RefJson.dumps (VDict default_config)).
Proof.
intros s.
apply (save_config_empty_dict_writes_memory RefJson.dumps s "/c.json"
 (VDict default_config)).
- reflexivity.
- reflexivity.
- apply not_elem_of_empty.
- apply not_elem_of_empty.
Defined.

(** What the file then holds is not the text of [{}]. *)
Lemma save_config_empty_dict_not_written :
let s := store_at "/c.json" (VDict default_config) (disk_of [] []) [] "/home/u" in
let r := save_config (VDict []) s in
r.1 = Ok tt /\
files (fs r.2) !! "/c.json" <> Some (RefJson.dumps (VDict [])) /\
(files (fs r.2) !! "/c.json" ≫= RefJson.loads) = Some (VDict default_config).
Proof. vm_compute. by repeat split. Qed.

Lemma empty_path_is_default_path_witness :
let s := fresh (disk_of [] ["/home/u"]) "/home/u" in
new (Some "") s = new None s /\
config_path (self (new (Some "") s).2) = Some "/home/u/.kick_presence/config.json" /\
"/home/u/.kick_presence" ∈ dirs (fs (new (Some "") s).2).
Proof.
intros s.
destruct (empty_path_is_default_path RefJson.dumps RefJson.loads s) as [Hsame Hok].
split; [exact Hsame|].
apply (Hok (new (Some "") s).2). vm_compute. reflexivity.
Defined.

End Scenarios.

Section LoggingScenarios.
Import Logging.

Local Abbreviation setup_logging := (Logging.setup_logging has_field).


End LoggingScenarios.

(** * Further properties of the store and of the logging setup *)

(** ** get and set beyond the round trip *)

Section PathFacts.
Import Config.
Implicit Types (s : state) (doc node v default : value) (d : dict).

(** Assigning the document an instance already holds changes nothing. *)
Lemma with_self_same s doc :
config_data (self s) = Some doc ->
with_self {| config_path := config_path (self s); config_data := Some doc |} s = s.
Proof. destruct s as [[cp cd] disk out h]. simpl. by intros ->. Qed.

(** No path with a segment resolves in an empty mapping. *)
Lemma lookup_path_empty k keys : lookup_path (k :: keys) (VDict []) = None.
Proof. done. Qed.

(** [set_loop] along [init ++ [last]] leaves every path that leaves it at
some segment where it was, whether it returns or raises. *)
Lemma set_loop_other init last v config pre a ra b rb :
init ++ [last] = pre ++ a :: ra ->
a <> b ->
lookup_path (pre ++ b :: rb) (set_loop init last v config).2
= lookup_path (pre ++ b :: rb) config.
Proof.
revert init config. induction pre as [|p pre IH]; intros init config Hsplit Hne.
- simpl in Hsplit. destruct init as [|k init]; simpl in Hsplit.
+ injection Hsplit as -> <-. simpl.
destruct config; simpl; try done. by rewrite dict_get_set_ne.
+ injection Hsplit as -> _. cbn [set_loop].
destruct (py_in a config) as [present|] eqn:Hin; [|done].
destruct config as [| | | | |d]; simpl in Hin; try done.
* injection Hin as <-. destruct (index 0 a s); done.
* injection Hin as <-. by destruct (existsb _ l).
* injection Hin as <-. unfold dict_mem.
destruct (dict_get a d) as [child|] eqn:Ha; simpl.
-- rewrite Ha. destruct (set_loop init last v child) as [r child']. simpl.
   by rewrite dict_get_set_ne.
-- rewrite dict_get_set_eq.
   destruct (set_loop init last v (VDict [])) as [r child']. simpl.
   by rewrite !dict_get_set_ne.
- destruct init as [|k init]; simpl in Hsplit.
{ injection Hsplit as _ Hnil. by destruct pre. }
injection Hsplit as -> Hsplit. cbn [set_loop].
destruct (py_in p config) as [present|] eqn:Hin; [|done].
destruct config as [| | | | |d]; simpl in Hin; try done.
+ injection Hin as <-. destruct (index 0 p s); done.
+ injection Hin as <-. by destruct (existsb _ l).
+ injection Hin as <-. unfold dict_mem.
destruct (dict_get p d) as [child|] eqn:Hp; cbn [negb].
* cbv match. cbn [py_getitem]. rewrite Hp.
specialize (IH init child Hsplit Hne).
destruct (set_loop init last v child) as [r child']. simpl in *.
by rewrite dict_get_set_eq, Hp.
* cbn [py_setitem py_getitem]. rewrite dict_get_set_eq.
specialize (IH init (VDict []) Hsplit Hne).
destruct (set_loop init last v (VDict [])) as [r child']. simpl in *.
rewrite dict_get_set_eq, Hp, IH. by destruct pre.
Qed.
End PathFacts.

Section MoreGetSet.
Import Config.
Implicit Types (s : state) (doc node v default : value) (d : dict).

(** X1.  When every segment of the key resolves through mappings, [get]
returns the value stored at the path, whatever [default] is: a stored
[None] is returned as [None], not replaced by the default. *)
Theorem get_returns_stored_value s doc key default v :
config_data (self s) = Some doc ->
lookup_path (split_dot key) doc = Some v ->
get key default s = (Ok v, s).
Proof.
intros Hdoc Hv. rewrite (get_run s doc key default Hdoc).
by rewrite get_loop_lookup, Hv.
Qed.

Lemma get_returns_stored_value_witness :
let s := store_at "/c.json" (VDict default_config) (disk_of [] []) [] "/home/u" in
get "logging.file" (VStr "app.log") s = (Ok VNone, s).
Proof.
intros s.
apply (get_returns_stored_value s (VDict default_config)); reflexivity.
Defined.

(** X2.  [set] fails in one way only.  When a node that exists on the way
to the last segment (the document itself included) is not a mapping,
[set] raises [TypeError] and the store is exactly as it was: no
intermediate mapping has been created.  In every other case it
returns. *)
Theorem set_raises_before_changing s doc key v :
config_data (self s) = Some doc ->
if mappings_along (removelast (split_dot key)) doc
then exists s', set key v s = (Ok tt, s')
else set key v s = (Raise TypeError, s).
Proof.
intros Hdoc. rewrite (set_run s doc key v Hdoc).
destruct (mappings_along _ doc) eqn:Hm.
- destruct (set_loop_ok _ (List.last (split_dot key) "") v doc Hm) as [doc' ->].
by eexists.
- pose proof (set_loop_not_ok _ (List.last (split_dot key) "") v doc Hm) as Hr.
destruct (set_loop _ _ v doc) as [r doc'] eqn:Hset. simpl in Hr. subst r.
apply set_loop_raise in Hset as ->. by rewrite with_self_same.
Qed.

Lemma set_raises_before_changing_witness :
let s := store_at "/c.json" (VDict default_config) (disk_of [] []) [] "/home/u" in
set "gui.theme.colour.accent" (VStr "red") s = (Raise TypeError, s).
Proof.
intros s.
apply (set_raises_before_changing s (VDict default_config)
   "gui.theme.colour.accent" (VStr "red") eq_refl).
Defined.

End MoreGetSet.

(** ** The merge, again *)

Section MoreMerge.
Import Config.
Implicit Types (k f : string) (v : value) (d m dv dc : dict).

(** X6.  The merge with the defaults is idempotent: a document that came
out of it is left exactly as it is by merging again, so loading what a
load produced adds nothing. *)
Theorem merge_loop_idempotent loaded doc :
merge_loop default_config loaded = Ok doc ->
merge_loop default_config doc = Ok doc.
Proof.
destruct (isinstance_dict loaded) eqn:Hd.
- destruct loaded as [| | | | |m]; try done.
rewrite merge_loop_dict. intros Heq.
assert (doc = VDict (fold_left merge_item default_config m)) as -> by congruence.
rewrite merge_loop_dict. do 2 f_equal.
apply merge_items_done, default_config_NoDup.
- by rewrite merge_loop_not_dict.
Qed.

Lemma merge_loop_idempotent_witness :
let loaded := VDict [("kick", VDict [("username", VStr "streamer")]); ("extra", VInt 1)] in
let doc :=
VDict [("kick", VDict [("username", VStr "streamer"); ("check_interval", VInt 30);
                   ("enable_notifications", VBool true)]);
   ("extra", VInt 1);
   ("discord", VDict [("client_id", VStr ""); ("enable_rich_presence", VBool true)]);
   ("gui", VDict [("theme", VStr "dark"); ("start_minimized", VBool false);
                  ("minimize_to_tray", VBool true)]);
   ("logging", VDict [("level", VStr "INFO"); ("file", VNone)])] in
merge_loop default_config doc = Ok doc.
Proof.
intros loaded doc. apply (merge_loop_idempotent loaded doc). reflexivity.
Defined.
End MoreMerge.

(** ** set and the paths it does not name *)

Section SetIsLocal.
Import Config.
Variable json_dumps : value -> string.
Variable json_loads : string -> option value.
Implicit Types (s : state) (doc v default : value).

Local Abbreviation new := (Config.new json_dumps json_loads).

(** X3.  [set] is local on a store whose document no caller has a hand in:
a store that was constructed and has since seen only [set] calls with
values that are not containers ([None], booleans, integers, strings).
The mappings of such a document are those the load and [set] itself
made, each in one place, so the document is the tree the embedding
takes it for.  On such a store a key that leaves the key being set at
some segment answers after the call what it answered before, whether
the call returned or raised (also when the call created the mappings
the two keys share); and the call touches neither the disk, nor the
console, nor the path of the store: nothing is persisted before
[save_config].  (A mapping that was passed to [set] and is still held
elsewhere, as in [set("copy", get("kick"))], is shared by two paths,
and a later [set] through one of them shows through the other: such
stores are not covered.) *)
Theorem set_leaves_other_paths s0 path calls s1 s doc key v other default pre a ra b rb :
new path s0 = (Ok tt, s1) ->
set_each calls s1 = (Ok tt, s) ->
Forall (fun call => scalar call.2 = true) calls ->
config_data (self s) = Some doc ->
split_dot key = pre ++ a :: ra ->
split_dot other = pre ++ b :: rb ->
a <> b ->
(get other default (set key v s).2).1 = (get other default s).1 /\
fs (set key v s).2 = fs s /\
stdout (set key v s).2 = stdout s /\
config_path (self (set key v s).2) = config_path (self s).
Proof.
intros _ _ _ Hdoc Hkey Hother Hne. rewrite (set_run s doc key v Hdoc).
pose proof (set_loop_other (removelast (split_dot key))
        (List.last (split_dot key) "") v doc pre a ra b rb) as Hframe.
rewrite <-split_dot_init_last in Hframe. specialize (Hframe Hkey Hne).
destruct (set_loop _ _ v doc) as [r doc']. simpl in *.
split_and!; try done.
erewrite !get_run by (simpl; done). simpl.
by rewrite !get_loop_lookup, Hother, Hframe.
Qed.
End SetIsLocal.

Section SetIsLocalScenario.
Import Config.

(** A first run, a user name and an interval set; then a new section is set
through a path that does not exist yet. *)
Lemma set_leaves_other_paths_witness :
let s0 := fresh (disk_of [] []) "/home/u" in
let s1 := (Config.new RefJson.dumps RefJson.loads (Some "/c.json") s0).2 in
let calls := [("kick.username", VStr "streamer"); ("kick.check_interval", VInt 60)] in
let s := (set_each calls s1).2 in
(get "kick.check_interval" VNone (set "kick.username" (VStr "other") s).2).1
= (get "kick.check_interval" VNone s).1 /\
fs (set "kick.username" (VStr "other") s).2 = fs s /\
stdout (set "kick.username" (VStr "other") s).2 = stdout s /\
config_path (self (set "kick.username" (VStr "other") s).2) = config_path (self s).
Proof.
intros s0 s1 calls s.
apply (set_leaves_other_paths RefJson.dumps RefJson.loads s0 (Some "/c.json") calls s1 s
   (VDict [("kick", VDict [("username", VStr "streamer"); ("check_interval", VInt 60);
                           ("enable_notifications", VBool true)]);
           ("discord", VDict [("client_id", VStr ""); ("enable_rich_presence", VBool true)]);
           ("gui", VDict [("theme", VStr "dark"); ("start_minimized", VBool false);
                          ("minimize_to_tray", VBool true)]);
           ("logging", VDict [("level", VStr "INFO"); ("file", VNone)])])
   "kick.username" (VStr "other") "kick.check_interval" VNone
   ["kick"] "username" [] "check_interval" []).
- vm_compute. reflexivity.
- vm_compute. reflexivity.
- repeat constructor.
- vm_compute. reflexivity.
- reflexivity.
- reflexivity.
- done.
Defined.
End SetIsLocalScenario.

(** ** Construction and save: failures and frames *)

Section MoreStore.
Import Config.
Variable json_dumps : value -> string.
Variable json_loads : string -> option value.
Implicit Types (s : state) (p q : string) (doc v : value).

Local Abbreviation save_config := (Config.save_config json_dumps).
Local Abbreviation new := (Config.new json_dumps json_loads).
Local Abbreviation __str__ := (Config.__str__ json_dumps).


(** X5.  A file that holds valid JSON which is not an object (a list, a
string, a number, a boolean, [null]) makes construction raise
[TypeError]: the merge applies [in] and item assignment to whatever
was parsed, and the handler of [_load_config] catches only I/O and
decode errors.  Nothing is written and nothing is printed. *)
Theorem non_object_file_raises_type_error s p text v :
p <> "" ->
read_text p (fs s) = Ok text ->
json_loads text = Some v ->
isinstance_dict v = false ->
exists s',
new (Some p) s = (Raise TypeError, s') /\
fs s' = fs s /\ stdout s' = stdout s /\ config_data (self s') = None.
Proof.
intros Hp Hr Hl Hd. rewrite (new_run json_dumps json_loads s p Hp).
destruct (read_text_ok _ _ _ Hr) as (_ & _ & ->).
rewrite Hr, Hl, (merge_loop_not_dict v Hd). by eexists.
Qed.

(** X7.  With the default path, a failure to create the application
directory is not caught: construction raises the [OSError] of
[mkdir], before any file is read or written, and the instance has no
document. *)
Theorem default_directory_failure_raises s e :
mkdir_exist_ok (path_join (home s) ".kick_presence") (fs s) = Raise e ->
exists s',
new None s = (Raise e, s') /\
fs s' = fs s /\ stdout s' = stdout s /\
config_path (self s') = None /\ config_data (self s') = None.
Proof.
intros Hmk.
unfold Config.new, Config.__init__, Config._get_default_config_path.
unfold bind, modify, gets, os_mkdir_exist_ok, ret. simpl. rewrite Hmk.
by eexists.
Qed.

(** X8.  Construction at an explicit path changes at most the file at that
path, and only when nothing existed there: whatever the outcome, no
directory is created or removed, every other file is as it was, and a
path that existed is left exactly as it was (the merged defaults are
not written back). *)
Theorem construction_touches_only_a_new_file s p r s' :
p <> "" ->
new (Some p) s = (r, s') ->
dirs (fs s') = dirs (fs s) /\
unreadable (fs s') = unreadable (fs s) /\
unwritable (fs s') = unwritable (fs s) /\
(forall q, q <> p -> files (fs s') !! q = files (fs s) !! q) /\
(path_exists p (fs s) = true -> fs s' = fs s).
Proof.
intros Hp. rewrite (new_run json_dumps json_loads s p Hp).
destruct (path_exists p (fs s)).
- destruct (read_text p (fs s)) as [text|e]; [|by destruct e; intros [= <- <-]].
destruct (json_loads text) as [loaded|]; [|by intros [= <- <-]].
destruct (merge_loop default_config loaded); by intros [= <- <-].
- destruct (write_text p _ (fs s)) as [w disk'] eqn:Hw.
apply write_text_frame in Hw as (Hd & Hr & Hu & Hf).
destruct w as [[]|e]; intros [= <- <-]; simpl; split_and!; try done.
Qed.

(** X9.  The file that construction could not load (reading it failed with
an I/O error, or its text is not JSON) survives construction but not
the next save: [save_config()] on the store that fell back to the
defaults replaces the file's text by the defaults. *)
Theorem save_after_fallback_overwrites s p :
p <> "" ->
has_nul p = false ->
path_exists p (fs s) = true ->
(exists msg, read_text p (fs s) = Raise (OSError msg)) \/
(exists text, read_text p (fs s) = Ok text /\ json_loads text = None) ->
p ∉ unwritable (fs s) -> p ∉ dirs (fs s) ->
exists s1 s2,
new (Some p) s = (Ok tt, s1) /\
fs s1 = fs s /\
config_data (self s1) = Some (VDict default_config) /\
save_config VNone s1 = (Ok tt, s2) /\
files (fs s2) !! p = Some (json_dumps (VDict default_config)).
Proof.
intros Hp _ Hex Hfail Hw Hd. rewrite (new_run json_dumps json_loads s p Hp), Hex.
assert (forall line,
let s1 := store_at p (VDict default_config) (fs s) (stdout s ++ [line]) (home s) in
save_config VNone s1
= (Ok tt, with_fs (write_file p (json_dumps (VDict default_config)) (fs s)) s1)) as Hsave.
{ intros line s1.
rewrite (save_config_run json_dumps s1 p VNone (VDict default_config) eq_refl)
by (by right).
simpl. by rewrite write_text_ok. }
destruct Hfail as [[msg Hr]|(text & Hr & Hl)]; rewrite Hr; [|rewrite Hl].
- eexists _, _. split_and!; [done | done | done | apply Hsave |].
simpl. by rewrite lookup_insert_eq.
- eexists _, _. split_and!; [done | done | done | apply Hsave |].
simpl. by rewrite lookup_insert_eq.
Qed.

(** X10.  [str(config)] is the JSON text of the in-memory document and
changes nothing; it is the text [save_config()] writes when the file
can be written. *)
Theorem str_is_the_saved_text s p doc :
config_path (self s) = Some p ->
config_data (self s) = Some doc ->
p ∉ unwritable (fs s) -> p ∉ dirs (fs s) ->
__str__ s = (Ok (json_dumps doc), s) /\
files (fs (save_config VNone s).2) !! p = Some (json_dumps doc).
Proof.
intros Hp Hdoc Hw Hd. split.
- unfold Config.__str__, bind, self_config_data, ret. by rewrite Hdoc.
- rewrite (save_config_run json_dumps s p VNone doc Hp) by (by right).
rewrite write_text_ok by done. simpl. by rewrite lookup_insert_eq.
Qed.

(** X15.  Load, save, load again: when the file parses as a JSON object
and can be written, the store constructed from it, saved unchanged,
and constructed again at the same path holds the same document.  What
the first load merged in is on disk after the save and the second load
adds nothing to it. *)
Theorem reload_after_save_is_stable s p text m :
(forall v, wf v -> json_loads (json_dumps v) = Some v) ->
(forall t v, json_loads t = Some v -> wf v) ->
p <> "" ->
read_text p (fs s) = Ok text ->
json_loads text = Some (VDict m) ->
p ∉ unwritable (fs s) ->
exists doc s1 s2 s3,
new (Some p) s = (Ok tt, s1) /\
config_data (self s1) = Some doc /\
save_config VNone s1 = (Ok tt, s2) /\
files (fs s2) !! p = Some (json_dumps doc) /\
new (Some p) s2 = (Ok tt, s3) /\
config_data (self s3) = Some doc.
Proof.
intros Hrt Hwf Hp Hr Hl Hw.
destruct (read_text_ok _ _ _ Hr) as (Hfile & Hrd & Hex).
assert (p ∉ dirs (fs s)) as Hd.
{ intros Hd. unfold read_text in Hr.
rewrite (bool_decide_eq_false_2 _ Hrd), (bool_decide_eq_true_2 _ Hd) in Hr. done. }
set (doc := VDict (fold_left merge_item default_config m)).
assert (wf doc) as Hdoc.
{ apply wf_merge; [apply wf_default_config | by eapply Hwf]. }
set (s1 := store_at p doc (fs s) (stdout s) (home s)).
set (disk2 := write_file p (json_dumps doc) (fs s)).
exists doc, s1, (with_fs disk2 s1). eexists.
split_and!.
- rewrite (new_run json_dumps json_loads s p Hp), Hex, Hr, Hl.
by rewrite merge_loop_dict.
- done.
- rewrite (save_config_run json_dumps s1 p VNone doc eq_refl) by (by right).
simpl. by rewrite write_text_ok.
- simpl. by rewrite lookup_insert_eq.
- rewrite (new_run json_dumps json_loads _ p Hp).
cbn [fs with_fs s1 store_at stdout home].
assert (path_exists p disk2 = true) as ->.
{ unfold path_exists. simpl. by rewrite lookup_insert_eq. }
assert (read_text p disk2 = Ok (json_dumps doc)) as ->.
{ apply read_text_ok_iff. simpl. rewrite lookup_insert_eq.
split_and!; try done.
rewrite not_elem_of_difference. right. by apply elem_of_singleton. }
rewrite (Hrt doc Hdoc). unfold doc at 1. rewrite merge_loop_dict.
rewrite merge_items_done by apply default_config_NoDup. reflexivity.
- done.
Qed.
End MoreStore.

Section MoreStoreScenarios.
Import Config.


(** What the three outcomes look like: the text in full; nothing but a
line; the first ten characters where a document was. *)
Example save_config_outcomes :
let text := RefJson.dumps (VDict default_config) in
let run disk :=
  (Config.save_config RefJson.dumps VNone
     (store_at "/c.json" (VDict default_config) disk [] "/home/u")).2 in
let old := disk_of [("/c.json", "{}")] [] in
files (fs (run old)) !! "/c.json" = Some text /\
stdout (run old) = [] /\
files (fs (run (deny_write "/c.json" old))) !! "/c.json" = Some "{}" /\
stdout (run (deny_write "/c.json" old))
  = ["Error saving config to /c.json: [Errno 13] Permission denied: '/c.json'"] /\
files (fs (run (give_out "/c.json" 10 old))) !! "/c.json" = Some (substring 0 10 text) /\
stdout (run (give_out "/c.json" 10 old))
  = ["Error saving config to /c.json: [Errno 28] No space left on device"].
Proof. vm_compute. by repeat split. Qed.

Lemma default_directory_failure_raises_witness :
let s := fresh (disk_of [("/home/u/.kick_presence", "notes")] ["/home/u"]) "/home/u" in
exists s',
Config.new RefJson.dumps RefJson.loads None s =
(Raise (OSError "[Errno 17] File exists: '/home/u/.kick_presence'"), s') /\
fs s' = fs s /\ stdout s' = stdout s /\
config_path (self s') = None /\ config_data (self s') = None.
Proof.
intros s.
apply (default_directory_failure_raises RefJson.dumps RefJson.loads s). vm_compute. reflexivity.
Defined.


Lemma construction_touches_only_a_new_file_witness :
let s := fresh (disk_of [("/other.txt", "kept")] []) "/home/u" in
let s' := (Config.new RefJson.dumps RefJson.loads (Some "/c.json") s).2 in
dirs (fs s') = dirs (fs s) /\
unreadable (fs s') = unreadable (fs s) /\
unwritable (fs s') = unwritable (fs s) /\
(forall q, q <> "/c.json" -> files (fs s') !! q = files (fs s) !! q) /\
(path_exists "/c.json" (fs s) = true -> fs s' = fs s).
Proof.
intros s s'.
apply (construction_touches_only_a_new_file RefJson.dumps RefJson.loads s "/c.json"
   (Config.new RefJson.dumps RefJson.loads (Some "/c.json") s).1 s').
- done.
- by destruct (Config.new RefJson.dumps RefJson.loads (Some "/c.json") s).
Defined.


Lemma non_object_file_raises_type_error_witness :
let s := fresh (disk_of [("/c.json", "[1, 2]")] []) "/home/u" in
exists s',
Config.new RefJson.dumps RefJson.loads (Some "/c.json") s = (Raise TypeError, s') /\
fs s' = fs s /\ stdout s' = stdout s /\ config_data (self s') = None.
Proof.
intros s.
apply (non_object_file_raises_type_error RefJson.dumps RefJson.loads s "/c.json"
   "[1, 2]" (VList [VInt 1; VInt 2])).
- done.
- vm_compute. reflexivity.
- vm_compute. reflexivity.
- reflexivity.
Defined.

Lemma save_after_fallback_overwrites_witness :
let s := fresh (disk_of [("/c.json", "{ invalid json }")] []) "/home/u" in
exists s1 s2,
Config.new RefJson.dumps RefJson.loads (Some "/c.json") s = (Ok tt, s1) /\
fs s1 = fs s /\
config_data (self s1) = Some (VDict default_config) /\
Config.save_config RefJson.dumps VNone s1 = (Ok tt, s2) /\
files (fs s2) !! "/c.json" = Some (RefJson.dumps (VDict default_config)).
Proof.
intros s.
apply (save_after_fallback_overwrites RefJson.dumps RefJson.loads s "/c.json").
- done.
- reflexivity.
- vm_compute. reflexivity.
- right. exists "{ invalid json }". split; vm_compute; reflexivity.
- apply not_elem_of_empty.
- apply not_elem_of_empty.
Defined.

Lemma str_is_the_saved_text_witness :
let s := store_at "/c.json" (VDict default_config) (disk_of [] []) [] "/home/u" in
Config.__str__ RefJson.dumps s = (Ok (RefJson.dumps (VDict default_config)), s) /\
files (fs (Config.save_config RefJson.dumps VNone s).2) !! "/c.json"
= Some (RefJson.dumps (VDict default_config)).
Proof.
intros s.
apply (str_is_the_saved_text RefJson.dumps s "/c.json" (VDict default_config)).
- reflexivity.
- reflexivity.
- apply not_elem_of_empty.
- apply not_elem_of_empty.
Defined.

Lemma reload_after_save_is_stable_witness :
let old := VDict [("kick", VDict [("username", VStr "streamer")])] in
let s := fresh (disk_of [("/c.json", RefJson.dumps old)] []) "/home/u" in
exists doc s1 s2 s3,
Config.new RefJson.dumps RefJson.loads (Some "/c.json") s = (Ok tt, s1) /\
config_data (self s1) = Some doc /\
Config.save_config RefJson.dumps VNone s1 = (Ok tt, s2) /\
files (fs s2) !! "/c.json" = Some (RefJson.dumps doc) /\
Config.new RefJson.dumps RefJson.loads (Some "/c.json") s2 = (Ok tt, s3) /\
config_data (self s3) = Some doc.
Proof.
intros old s.
apply (reload_after_save_is_stable RefJson.dumps RefJson.loads s "/c.json"
   (RefJson.dumps old) [("kick", VDict [("username", VStr "streamer")])]).
- apply loads_dumps.
- apply loads_wf.
- done.
- vm_compute. reflexivity.
- vm_compute. reflexivity.
- apply not_elem_of_empty.
Defined.
End MoreStoreScenarios.

(** ** logging: levels, failures and the disk *)

Section SinkFacts.
Implicit Types (p q path : string) (disk : filesystem).

(** What the attempt to open the file sink does to the disk: it adds
directories, and at most the log file, empty; when it succeeds the log
file and its directory are there; when it fails no file has changed. *)
Lemma file_sink_attempt_frame path disk :
(forall q text, files disk !! q = Some text ->
            files (file_sink_attempt path disk).2 !! q = Some text) /\
(forall q, is_Some (files (file_sink_attempt path disk).2 !! q) ->
       is_Some (files disk !! q) \/
       (q = path /\ (file_sink_attempt path disk).1 = true /\
        files (file_sink_attempt path disk).2 !! q = Some "")) /\
(forall d, d ∈ dirs disk -> d ∈ dirs (file_sink_attempt path disk).2) /\
((file_sink_attempt path disk).1 = true ->
 path_parent path ∈ dirs (file_sink_attempt path disk).2 /\
 is_Some (files (file_sink_attempt path disk).2 !! path)) /\
((file_sink_attempt path disk).1 = false ->
 files (file_sink_attempt path disk).2 = files disk).
Proof.
unfold file_sink_attempt.
destruct (mkdir_parents _ (path_parent path) disk) as [r disk1] eqn:Hmk.
apply mkdir_parents_frame in Hmk as (Hfl & _ & _ & _ & Hold & Hok & _).
destruct r as [[]|e]; simpl.
- unfold open_append. repeat case_bool_decide; simpl.
1,2: rewrite Hfl; split_and!; eauto; done.
destruct (files disk1 !! path) as [t|] eqn:Hp; simpl.
+ rewrite Hfl. split_and!; eauto; try done. intros _. split; [by apply Hok|].
rewrite <-Hfl, Hp. by eexists.
+ rewrite Hfl in *. split_and!; eauto; try done.
* intros q text Hq. rewrite lookup_insert_ne; [done|]. congruence.
* intros q. destruct (decide (q = path)) as [->|Hne].
  -- rewrite lookup_insert_eq. intros _. by right.
  -- rewrite lookup_insert_ne by done. by left.
* intros _. split; [by apply Hok|]. rewrite lookup_insert_eq. by eexists.
- rewrite Hfl. split_and!; eauto; done.
Qed.
End SinkFacts.

Section MoreLogging.
Import Logging.
Variable valid_format : string -> bool.
Implicit Types (s : state) (h : handler) (hs : list handler).

Local Abbreviation setup_logging := (Logging.setup_logging valid_format).
Local Arguments Nat.eqb : simpl never.

(** The level a call resolves, and what it has printed by then. *)
Lemma resolve_level s level :
(match logging_int_attr (level_name level (environ s)) with
 | Some n => ret n
 | None =>
 let* _ := print ("Invalid log level: " +:+ level_name level (environ s)
                  +:+ ". Using INFO.") in
 ret INFO
 end) s
= (Ok (level_number level (environ s)),
 with_stdout (stdout s ++ level_diagnostic level (environ s)) s).
Proof.
unfold level_number, level_diagnostic.
destruct (logging_int_attr _); simpl; [|done].
unfold ret. f_equal. destruct s; simpl. by rewrite app_nil_r.
Qed.

(** A call with a template the formatter rejects: it raises before the
root logger is touched. *)
Lemma setup_logging_rejected s level log_file format_string :
valid_format (default default_format format_string) = false ->
exists msg,
setup_logging level log_file format_string s =
(Raise (ValueError msg),
 with_stdout (stdout s ++ level_diagnostic level (environ s)) s).
Proof.
intros Hbad. unfold Logging.setup_logging.
rewrite (bind_ok _ _ s s (level_name level (environ s)))
by (unfold level_name, gets, ret; by destruct level as [l|]; [destruct (truthy (VStr l))|]).
rewrite (bind_ok _ _ s _ _ (resolve_level s level)).
unfold bind at 1, Formatter. rewrite Hbad. by eexists.
Qed.

(** A call with a template the formatter accepts, in full. *)
Lemma setup_logging_effects s level log_file format_string :
valid_format (default default_format format_string) = true ->
exists s1 out_file,
setup_logging level log_file format_string s = (Ok tt, s1) /\
environ s1 = environ s /\
root_level s1 = level_number level (environ s) /\
logger_levels s1 =
<["discord" := WARNING]>
  (<["requests" := WARNING]> (<["urllib3" := WARNING]> (logger_levels s))) /\
sink_config s1 = expected_sinks level log_file format_string s /\
fs s1 = match log_file with
      | Some path =>
          if truthy (VStr path) then (file_sink_attempt path (fs s)).2 else fs s
      | None => fs s
      end /\
stdout s1 = stdout s ++ level_diagnostic level (environ s) ++ out_file /\
match log_file with
| Some path =>
  if truthy (VStr path) && negb (file_sink_attempt path (fs s)).1
  then exists msg,
         out_file = ["Warning: Could not create log file " +:+ path
                     +:+ ": " +:+ msg]
  else out_file = []
| None => out_file = []
end.
Proof.
intros Hvalid. unfold Logging.setup_logging.
rewrite (bind_ok _ _ s s (level_name level (environ s)))
by (unfold level_name, gets, ret; by destruct level as [l|]; [destruct (truthy (VStr l))|]).
rewrite (bind_ok _ _ s _ _ (resolve_level s level)).
set (n := level_number level (environ s)).
set (sA := with_stdout (stdout s ++ level_diagnostic level (environ s)) s).
rewrite (bind_ok _ _ sA sA (default default_format format_string))
by (unfold Formatter; by rewrite Hvalid).
rewrite (bind_ok _ _ sA (with_root_level n sA) tt) by done.
rewrite (bind_ok _ _ _ (with_root_level n sA) (root_handlers sA)) by done.
rewrite (bind_ok _ _ _ _ tt
       (remove_each_handler (root_handlers sA) (with_root_level n sA) eq_refl)).
unfold expected_sinks, file_sink_attempt. fold n.
subst sA. generalize (level_diagnostic level (environ s)). intros diag.
generalize dependent n. intros n.
remember (default default_format format_string) as f eqn:Hf. clear Hf Hvalid.
unfold bind, try_except, new_handler, addHandler, modify, os_mkdir_parents,
os_open_append, print, logger_setLevel, ret, sink_config.
destruct s as [lvl hs lg nx disk out0 env].
destruct log_file as [path|]; [destruct (truthy (VStr path)) eqn:Htr|].
- remember (path_rank (path_parent path)) as fuel eqn:Hfuel.
remember (path_parent path) as par eqn:Hpar. clear Hfuel Hpar.
simpl.
destruct (mkdir_parents fuel par disk) as [[[]|e] disk1] eqn:Hmk; simpl.
+ destruct (open_append path disk1) as [disk2|e] eqn:Hop; simpl.
* rewrite (proj2 (Nat.eqb_neq (S nx) nx)) by lia. simpl.
  eexists _, []. split; [reflexivity|]. simpl. rewrite app_nil_r.
  by split_and!.
* destruct (open_append_raise _ _ _ Hop) as [msg ->]. simpl.
  eexists _, [_]. split; [reflexivity|]. simpl. rewrite <-app_assoc.
  split_and!; try done. by eexists.
+ destruct (mkdir_parents_raise _ _ _ _ _ Hmk) as [msg ->]. simpl.
eexists _, [_]. split; [reflexivity|]. simpl. rewrite <-app_assoc.
split_and!; try done. by eexists.
- simpl. eexists _, []. split; [reflexivity|]. simpl. rewrite app_nil_r.
by split_and!.
- simpl. eexists _, []. split; [reflexivity|]. simpl. rewrite app_nil_r.
by split_and!.
Qed.

(** A normalised path is not the empty string. *)
Lemma normalised_truthy path : normalised path = true -> truthy (VStr path) = true.
Proof. by destruct path. Qed.


(** X11.  A format string the formatter rejects makes the call raise
[ValueError] before anything is reconfigured: the level of the root
logger, its handlers, the levels of the named loggers and the disk are
as they were; only the line about an unknown level name, if any, has
been printed. *)
Theorem rejected_template_changes_nothing s level log_file format_string :
valid_format (default default_format format_string) = false ->
exists msg s',
setup_logging level log_file format_string s = (Raise (ValueError msg), s') /\
root_level s' = root_level s /\
root_handlers s' = root_handlers s /\
logger_levels s' = logger_levels s /\
fs s' = fs s /\
stdout s' = stdout s ++ level_diagnostic level (environ s).
Proof.
intros Hbad.
destruct (setup_logging_rejected s level log_file format_string Hbad) as [msg ->].
by eexists _, _.
Qed.

(** X12.  After a call that returns, the root logger and every installed
handler are at the resolved level: the [level] argument as it is
written, or the environment variable in upper case when the argument
is omitted or empty, and [INFO] when that name is not an integer
attribute of [logging], in which case one line says so.  The loggers
[urllib3], [requests] and [discord] are at [WARNING] whatever the
level, and no other named logger has changed. *)
Theorem setup_logging_sets_levels s level log_file format_string :
valid_format (default default_format format_string) = true ->
exists s1 out,
setup_logging level log_file format_string s = (Ok tt, s1) /\
root_level s1 = level_number level (environ s) /\
Forall (fun h => h_level h = level_number level (environ s)) (root_handlers s1) /\
(forall name, name ∈ third_party -> logger_levels s1 !! name = Some WARNING) /\
(forall name, name ∉ third_party ->
            logger_levels s1 !! name = logger_levels s !! name) /\
stdout s1 = stdout s ++ level_diagnostic level (environ s) ++ out.
Proof.
intros Hvalid.
destruct (setup_logging_effects s level log_file format_string Hvalid)
as (s1 & out & Hrun & _ & Hroot & Hlevels & Hsinks & _ & Hout & _).
exists s1, out. split_and!; try done.
- assert (Forall (fun t : sink * Z * option string =>
                t.1.2 = level_number level (environ s))
             (sink_config s1)) as Hall.
{ rewrite Hsinks. unfold expected_sinks.
destruct log_file as [path|]; [destruct (_ && _)|]; by repeat constructor. }
unfold sink_config in Hall. by apply Forall_map in Hall.
- intros name Hname. rewrite Hlevels. unfold third_party in Hname.
repeat (apply elem_of_cons in Hname as [->|Hname]; [by simplify_map_eq|]).
by apply elem_of_nil in Hname.
- intros name Hname. rewrite Hlevels. unfold third_party in Hname.
rewrite !lookup_insert_ne; [done|..]; intros <-; apply Hname; set_solver.
Qed.

(** X13.  The call never removes a file, a directory or a character of a
file: whatever its outcome, every file that was on disk is there with
the text it had (the log file is opened for appending), every directory
is still there, and the only file that can be new is the log file,
empty. *)
Theorem setup_logging_keeps_files s level log_file format_string r s1 :
setup_logging level log_file format_string s = (r, s1) ->
(forall q text, files (fs s) !! q = Some text -> files (fs s1) !! q = Some text) /\
(forall d, d ∈ dirs (fs s) -> d ∈ dirs (fs s1)) /\
(forall q, is_Some (files (fs s1) !! q) ->
       is_Some (files (fs s) !! q) \/
       (log_file = Some q /\ files (fs s1) !! q = Some "")).
Proof.
destruct (valid_format (default default_format format_string)) eqn:Hvalid.
- destruct (setup_logging_effects s level log_file format_string Hvalid)
as (s1' & out & -> & _ & _ & _ & _ & Hfs & _).
intros [= <- <-]. rewrite Hfs.
destruct log_file as [path|]; [destruct (truthy (VStr path))|]; eauto.
destruct (file_sink_attempt_frame path (fs s)) as (Hkeep & Hnew & Hdirs & _).
split_and!; try done.
intros q [Hq|(-> & _ & Hq)]%Hnew; [by left | by right].
- destruct (setup_logging_rejected s level log_file format_string Hvalid) as [msg ->].
intros [= <- <-]. simpl. eauto.
Qed.

(** X14.  When the log file is given as a normalised absolute path, either
the file sink is installed, and then the log file and its directory
exist afterwards (the directory made with its parents); or it is not,
and then the last line printed is the warning that the log file could
not be created and no file has changed. *)
Theorem file_sink_or_warning s level path format_string :
valid_format (default default_format format_string) = true ->
normalised path = true ->
exists s1,
setup_logging level (Some path) format_string s = (Ok tt, s1) /\
((map h_sink (root_handlers s1) = [Console; LogFile path] /\
path_parent path ∈ dirs (fs s1) /\
is_Some (files (fs s1) !! path))
 \/
 (map h_sink (root_handlers s1) = [Console] /\
files (fs s1) = files (fs s) /\
exists msg,
  last (stdout s1) =
  Some ("Warning: Could not create log file " +:+ path +:+ ": " +:+ msg))).
Proof.
intros Hvalid Hpath.
destruct (setup_logging_effects s level (Some path) format_string Hvalid)
as (s1 & out & Hrun & _ & _ & _ & Hsinks & Hfs & Hout & Hfile).
exists s1. split; [done|].
pose proof (normalised_truthy path Hpath) as Htr.
assert (map h_sink (root_handlers s1)
    = map (fun t : sink * Z * option string => t.1.1) (sink_config s1)) as ->.
{ unfold sink_config. rewrite map_map. done. }
rewrite Hsinks, Hfs. unfold expected_sinks. rewrite Htr in *. simpl in *.
destruct (file_sink_attempt_frame path (fs s)) as (_ & _ & _ & Hok & Hfail).
destruct (file_sink_attempt path (fs s)).1; simpl in *.
- left. split; [done|]. by apply Hok.
- right. split_and!; [done | by apply Hfail|].
destruct Hfile as [msg ->]. exists msg.
by rewrite Hout, !app_assoc, last_snoc.
Qed.
End MoreLogging.

Section MoreLoggingScenarios.
Import Logging.

Local Abbreviation setup_logging := (Logging.setup_logging has_field).


(** A template without a field. *)
Lemma rejected_template_changes_nothing_witness :
let s := process [] 0 (disk_of [] ["/"]) ∅ in
exists msg s',
setup_logging (Some "verbose") (Some "/app.log") (Some "plain text") s
= (Raise (ValueError msg), s') /\
root_level s' = root_level s /\
root_handlers s' = root_handlers s /\
logger_levels s' = logger_levels s /\
fs s' = fs s /\
stdout s' = stdout s ++ level_diagnostic (Some "verbose") (environ s).
Proof.
intros s.
apply (rejected_template_changes_nothing has_field s (Some "verbose")
     (Some "/app.log") (Some "plain text")).
reflexivity.
Defined.

(** The level comes from the environment, in lower case there. *)
Lemma setup_logging_sets_levels_witness :
let s := process [] 0 (disk_of [] ["/"]) {["KICK_PRESENCE_LOG_LEVEL" := "debug"]} in
exists s1 out,
setup_logging None None None s = (Ok tt, s1) /\
root_level s1 = level_number None (environ s) /\
Forall (fun h => h_level h = level_number None (environ s)) (root_handlers s1) /\
(forall name, name ∈ third_party -> logger_levels s1 !! name = Some WARNING) /\
(forall name, name ∉ third_party ->
            logger_levels s1 !! name = logger_levels s !! name) /\
stdout s1 = stdout s ++ level_diagnostic None (environ s) ++ out.
Proof.
intros s.
apply (setup_logging_sets_levels has_field s None None None). reflexivity.
Defined.

(** A log file that is there keeps its text. *)
Lemma setup_logging_keeps_files_witness :
let s := process [] 0 (disk_of [("/logs/app.log", "earlier lines")] ["/"; "/logs"]) ∅ in
let s1 := (setup_logging None (Some "/logs/app.log") None s).2 in
(forall q text, files (fs s) !! q = Some text -> files (fs s1) !! q = Some text) /\
(forall d, d ∈ dirs (fs s) -> d ∈ dirs (fs s1)) /\
(forall q, is_Some (files (fs s1) !! q) ->
       is_Some (files (fs s) !! q) \/
       (Some "/logs/app.log" = Some q /\ files (fs s1) !! q = Some "")).
Proof.
intros s s1.
apply (setup_logging_keeps_files has_field s None (Some "/logs/app.log") None
     (setup_logging None (Some "/logs/app.log") None s).1 s1).
by destruct (setup_logging None (Some "/logs/app.log") None s).
Defined.

(** The directory of the log file is made with its parents. *)
Lemma file_sink_or_warning_witness :
let s := process [] 0 (disk_of [] ["/"]) ∅ in
exists s1,
setup_logging None (Some "/var/log/kick/app.log") None s = (Ok tt, s1) /\
((map h_sink (root_handlers s1) = [Console; LogFile "/var/log/kick/app.log"] /\
path_parent "/var/log/kick/app.log" ∈ dirs (fs s1) /\
is_Some (files (fs s1) !! "/var/log/kick/app.log"))
 \/
 (map h_sink (root_handlers s1) = [Console] /\
files (fs s1) = files (fs s) /\
exists msg,
  last (stdout s1) =
  Some ("Warning: Could not create log file " +:+ "/var/log/kick/app.log"
        +:+ ": " +:+ msg))).
Proof.
intros s.
apply (file_sink_or_warning has_field s None "/var/log/kick/app.log" None);
reflexivity.
Defined.

(** In that scenario it is the first case that holds, three directories
deep. *)
Example nested_log_directory_is_created :
let s := process [] 0 (disk_of [] ["/"]) ∅ in
let s1 := (setup_logging None (Some "/var/log/kick/app.log") None s).2 in
sink_config s1 = [(Console, INFO, Some default_format);
              (LogFile "/var/log/kick/app.log", INFO, Some default_format)] /\
dirs (fs s1) = list_to_set ["/"; "/var"; "/var/log"; "/var/log/kick"] /\
files (fs s1) !! "/var/log/kick/app.log" = Some "".
Proof. vm_compute. by repeat split. Qed.
End MoreLoggingScenarios.

(** ** main: the program *)

Section ConstructionFacts.
Import Config.
Variable json_dumps : value -> string.
Variable json_loads : string -> option value.
Implicit Types (s : state) (p : string).

Local Abbreviation new := (Config.new json_dumps json_loads).

Lemma path_join_nonempty a b : b <> "" -> path_join a b <> "".
Proof.
unfold path_join. intros Hb.
destruct (String.eqb_spec a "/") as [->|]; [done|].
destruct a; [|done]. simpl. done.
Qed.

(** Construction at the default path: the directory first, then as at an
explicit path. *)
Lemma new_default_run s :
new None s =
match mkdir_exist_ok (path_join (home s) ".kick_presence") (fs s) with
| Ok disk' =>
  new (Some (path_join (path_join (home s) ".kick_presence") "config.json"))
      (with_fs disk' s)
| Raise e => (Raise e, with_self {| config_path := None; config_data := None |} s)
end.
Proof.
unfold Config.new, Config.__init__, Config._get_default_config_path.
unfold bind at 1, modify. unfold bind at 1. unfold bind at 1. unfold gets.
unfold bind at 1. unfold os_mkdir_exist_ok. cbn [fs with_self home].
destruct (mkdir_exist_ok _ (fs s)) as [disk'|e]; [|done].
unfold bind at 4. 
destruct (truthy (VStr (path_join (path_join (home s) ".kick_presence") "config.json")))
eqn:Htr.
- reflexivity.
- exfalso. simpl in Htr. apply negb_false_iff in Htr.
apply String.eqb_eq in Htr. by apply path_join_nonempty in Htr.
Qed.

(** Construction at an explicit path sees only the disk and the home
directory, and only appends to the console. *)
Lemma new_explicit_from_fresh s p :
p <> "" ->
new (Some p) s =
((new (Some p) (fresh (fs s) (home s))).1,
 with_stdout (stdout s ++ stdout (new (Some p) (fresh (fs s) (home s))).2)
 (new (Some p) (fresh (fs s) (home s))).2).
Proof.
intros Hp. rewrite !(new_run json_dumps json_loads _ p Hp).
cbn [fs fresh stdout home].
destruct (path_exists p (fs s)).
- destruct (read_text p (fs s)) as [text|e];
[|by destruct e; simpl; rewrite ?app_nil_r].
destruct (json_loads text) as [loaded|]; [|done].
destruct (merge_loop default_config loaded); simpl; by rewrite app_nil_r.
- destruct (write_text p _ (fs s)) as [[[]|e] disk']; simpl;
[by rewrite app_nil_r | done].
Qed.

(** So does construction at the default path. *)
Lemma new_from_fresh s :
new None s =
((new None (fresh (fs s) (home s))).1,
 with_stdout (stdout s ++ stdout (new None (fresh (fs s) (home s))).2)
 (new None (fresh (fs s) (home s))).2).
Proof.
rewrite !new_default_run. cbn [fs fresh home].
destruct (mkdir_exist_ok _ (fs s)) as [disk'|e].
- rewrite (new_explicit_from_fresh (with_fs disk' s)),
  (new_explicit_from_fresh (with_fs disk' (fresh (fs s) (home s))))
  by (apply path_join_nonempty; done).
cbn [fs with_fs fresh home stdout]. simpl. done.
- simpl. by rewrite app_nil_r.
Qed.

(** A construction that returns leaves an instance with its document. *)
Lemma new_ok_has_document s s' :
new None s = (Ok tt, s') -> exists doc, config_data (self s') = Some doc.
Proof.
rewrite new_default_run.
destruct (mkdir_exist_ok _ (fs s)) as [disk'|e]; [|done].
rewrite (new_run json_dumps json_loads _ _ (path_join_nonempty _ "config.json" ltac:(done))).
cbn [fs with_fs].
destruct (path_exists _ disk').
- destruct (read_text _ disk') as [text|e];
[|destruct e; try done; intros [= <-]; by eexists].
destruct (json_loads text) as [loaded|]; [|intros [= <-]; by eexists].
destruct (merge_loop default_config loaded); [intros [= <-]; by eexists | done].
- destruct (write_text _ _ disk') as [[[]|e] disk'']; intros [= <-]; by eexists.
Qed.
End ConstructionFacts.

Section InfoFacts.
Import Logging Main.
Variable render : string -> string -> string -> string -> nat -> string.
Implicit Types (s : Logging.state) (name msg : string).

Local Abbreviation info := (Main.info render).

(** The effective level looks at the levels only. *)
Lemma getEffectiveLevel_ext name s s' :
logger_levels s = logger_levels s' -> root_level s = root_level s' ->
getEffectiveLevel name s = getEffectiveLevel name s'.
Proof. unfold getEffectiveLevel. by intros -> ->. Qed.

(** [info] when the console handler is the only handler: one line or
none. *)
Lemma info_console name msg t s n f :
sink_config s = [(Console, n, Some f)] ->
info name msg t s =
(Ok tt,
 if (getEffectiveLevel name s <=? INFO)%Z && (n <=? INFO)%Z
 then with_stdout (stdout s ++ [render f name "INFO" msg t]) s
 else s).
Proof.
unfold sink_config. intros Hs.
destruct (root_handlers s) as [|h [|h' hs]] eqn:Hh; try done.
injection Hs as Hk Hn Hf.
unfold Main.info, bind, gets. destruct (_ <=? INFO)%Z; [|done].
rewrite Hh. simpl. rewrite Hn. destruct (n <=? INFO)%Z; [|done].
unfold bind, emit. rewrite Hk, Hf. done.
Qed.
End InfoFacts.

Section ProgramFacts.
Import Logging Main.
Variable render : string -> string -> string -> string -> nat -> string.
Variable valid_format : string -> bool.
Variable json_dumps : value -> string.
Variable json_loads : string -> option value.
Implicit Types (s : Main.state) (l : Logging.state) (name msg : string).

Local Abbreviation main := (Main.main render valid_format json_dumps json_loads).
Local Abbreviation new := (Config.new json_dumps json_loads).
Local Abbreviation info := (Main.info render).

Lemma with_stdout_same l : with_stdout (stdout l ++ []) l = l.
Proof. destruct l. unfold with_stdout. simpl. by rewrite app_nil_r. Qed.

(** [info] right after [setup_logging()]. *)
Lemma info_after_setup name msg t l n f out :
sink_config l = [(Console, n, Some f)] ->
info name msg t (with_stdout out l) =
(Ok tt,
 with_stdout
 (out ++ if (getEffectiveLevel name l <=? INFO)%Z && (n <=? INFO)%Z
         then [render f name "INFO" msg t] else [])
 l).
Proof.
intros Hs. rewrite (info_console render name msg t (with_stdout out l) n f Hs).
rewrite (getEffectiveLevel_ext name (with_stdout out l) l) by done.
destruct (_ && _); [done|]. simpl. unfold with_stdout. simpl. by rewrite app_nil_r.
Qed.

(** The program states the run goes through: the logging state [l] with
the console and the disk replaced. *)
Local Abbreviation St out disk l cfg h clk :=
{| logging := with_stdout out (with_fs disk l); config := cfg;
 home := h; clock := clk |}.

Lemma step_info name msg out disk l cfg h clk n f :
sink_config l = [(Console, n, Some f)] ->
log_info render name msg (St out disk l cfg h clk) =
(Ok tt,
 St (out ++ if (getEffectiveLevel name l <=? INFO)%Z && (n <=? INFO)%Z
          then [render f name "INFO" msg clk] else [])
  disk l cfg h (S clk)).
Proof.
intros Hs. unfold log_info. cbn [logging clock config home].
rewrite (info_after_setup name msg clk (with_fs disk l) n f out) by done.
by rewrite (getEffectiveLevel_ext name (with_fs disk l) l).
Qed.

Lemma step_print line out disk l cfg h clk :
Main.print line (St out disk l cfg h clk) = (Ok tt, St (out ++ [line]) disk l cfg h clk).
Proof. reflexivity. Qed.

Lemma step_new out disk l cfg h clk :
in_config (new None) (St out disk l cfg h clk) =
((new None (fresh disk h)).1,
 St (out ++ Config.stdout (new None (fresh disk h)).2)
  (Config.fs (new None (fresh disk h)).2) l
  (Config.self (new None (fresh disk h)).2) h clk).
Proof.
unfold in_config. cbn [logging clock config home].
rewrite (new_from_fresh json_dumps json_loads).
cbn [Config.fs Config.home Config.stdout fs with_stdout with_fs stdout].
by destruct (new None (fresh disk h)) as [r c2].
Qed.

Lemma step_str out disk l cfg h clk doc :
Config.config_data cfg = Some doc ->
in_config (Config.__str__ json_dumps) (St out disk l cfg h clk) =
(Ok (json_dumps doc), St out disk l cfg h clk).
Proof.
intros Hdoc. unfold in_config, Config.__str__, bind, Config.self_config_data, ret.
cbn [logging clock config home Config.self]. by rewrite Hdoc.
Qed.

(** The whole run, step by step. *)
Lemma main_run name s :
valid_format default_format = true ->
exists l1,
root_level l1 = level_number None (environ (logging s)) /\
sink_config l1 =
  [(Console, level_number None (environ (logging s)), Some default_format)] /\
environ l1 = environ (logging s) /\
main name s =
let shown := info_shown name (logging s) in
let line := fun k msg =>
  if shown then [render default_format name "INFO" msg (k + clock s)] else [] in
let c := new None (fresh (fs (logging s)) (home s)) in
let before :=
  stdout (logging s) ++ level_diagnostic None (environ (logging s))
  ++ line 0 "Kick Presence starting..." ++ Config.stdout c.2 in
match c.1 with
| Raise e =>
    (Raise e, St before (Config.fs c.2) l1 (Config.self c.2) (home s) (S (clock s)))
| Ok _ =>
    (Ok tt,
     St (before
         ++ line 1 ("Configuration loaded: " +:+
                    match Config.config_data (Config.self c.2) with
                    | Some doc => json_dumps doc
                    | None => ""
                    end)
         ++ ["Kick Presence - Python desktop app for Kick monitoring";
             "This is a placeholder. Full implementation coming soon."]
         ++ line 2 "Kick Presence initialized successfully")
        (Config.fs c.2) l1 (Config.self c.2) (home s) (3 + clock s))
end.
Proof.
intros Hvalid.
destruct (setup_logging_effects valid_format (logging s) None None None Hvalid)
as (l1 & out & Hrun & Henv & Hroot & Hlevels & Hsinks & Hfs & Hout & ->).
unfold expected_sinks in Hsinks. simpl in Hsinks.
set (n := level_number None (environ (logging s))) in *.
set (d := level_diagnostic None (environ (logging s))) in *.
assert (l1 = with_stdout (stdout (logging s) ++ d) (with_fs (fs (logging s)) l1))
as Hl1.
{ destruct l1. unfold with_stdout, with_fs. simpl in *.
rewrite app_nil_r in Hout. by subst. }
assert (getEffectiveLevel name l1 = level_after_setup name (logging s)) as Heff.
{ unfold level_after_setup. apply getEffectiveLevel_ext; simpl; by rewrite ?Hlevels. }
exists l1. split_and!; try done.
cbv zeta. unfold Main.main.
unfold bind at 1. unfold in_logging at 1. rewrite Hrun, Hl1. clear Hl1 Hrun.
unfold bind at 1. rewrite (step_info _ _ _ _ _ _ _ _ n default_format Hsinks), Heff.
change ((level_after_setup name (logging s) <=? INFO)%Z && (n <=? INFO)%Z)
with (info_shown name (logging s)).
unfold bind at 1. rewrite step_new.
destruct (new None (fresh (fs (logging s)) (home s))) as [r c2] eqn:Hnew.
cbn [fst snd].
destruct r as [[]|e];
[|unfold with_stdout, with_fs; simpl; by rewrite <-!app_assoc].
destruct (new_ok_has_document json_dumps json_loads _ _ Hnew) as [doc Hdoc].
rewrite Hdoc.
unfold bind at 1. rewrite (step_str _ _ _ _ _ _ doc Hdoc).
unfold bind at 1. rewrite (step_info _ _ _ _ _ _ _ _ n default_format Hsinks), Heff.
change ((level_after_setup name (logging s) <=? INFO)%Z && (n <=? INFO)%Z)
with (info_shown name (logging s)).
unfold bind at 1. rewrite step_print.
unfold bind at 1. rewrite step_print.
rewrite (step_info _ _ _ _ _ _ _ _ n default_format Hsinks), Heff.
change ((level_after_setup name (logging s) <=? INFO)%Z && (n <=? INFO)%Z)
with (info_shown name (logging s)).
unfold with_stdout, with_fs. simpl. by rewrite <-!app_assoc.
Qed.
(** X16.  [main] fails only where the construction of the store fails.
Given that the formatter accepts the default template, [main] raises
exactly what [Config()] raises on the disk as it is (the [OSError] of
the application directory, the [TypeError] of a configuration file
that is not an object) and returns otherwise; and the disk after
[main] is the disk after that construction: the logging setup and the
log records write nothing. *)
Theorem main_fails_only_in_construction name s :
valid_format default_format = true ->
(main name s).1 = (new None (fresh (fs (logging s)) (home s))).1 /\
fs (logging (main name s).2)
= Config.fs (new None (fresh (fs (logging s)) (home s))).2.
Proof.
intros Hvalid.
destruct (main_run name s Hvalid) as (l1 & _ & _ & _ & ->). cbv zeta.
destruct (new None (fresh (fs (logging s)) (home s))) as [[[]|e] c2]; done.
Qed.

(** X17.  [main] logs to the console only, at the level of the
environment.  Whatever the configuration file holds, its [logging]
section included, and whether [main] returns or raises, the root
logger ends with exactly one handler, the console handler with the
default template, and both are at the level resolved from
[KICK_PRESENCE_LOG_LEVEL] alone: the configuration is loaded after the
logging is set up and is not consulted for it. *)
Theorem main_logs_to_console_only name s :
valid_format default_format = true ->
sink_config (logging (main name s).2)
= [(Console, level_number None (environ (logging s)), Some default_format)] /\
root_level (logging (main name s).2) = level_number None (environ (logging s)).
Proof.
intros Hvalid.
destruct (main_run name s Hvalid) as (l1 & Hroot & Hsinks & _ & ->). cbv zeta.
destruct (new None (fresh (fs (logging s)) (home s))) as [[[]|e] c2]; done.
Qed.

(** X18.  What a run that returns prints, in order: the line about an
unknown level name, if any; the record that the program starts; what
the construction of the store printed; the record with the JSON text
of the document; the two lines of the banner; the record that the
program is initialised.  The three records are there exactly when
[main]'s logger and the console handler both admit [INFO]; the banner
is there at every level. *)
Theorem main_console_output name s s' :
valid_format default_format = true ->
main name s = (Ok tt, s') ->
let record := fun k msg =>
if info_shown name (logging s)
then [render default_format name "INFO" msg (k + clock s)] else [] in
exists doc,
Config.config_data (config s') = Some doc /\
stdout (logging s') =
  stdout (logging s)
  ++ level_diagnostic None (environ (logging s))
  ++ record 0 "Kick Presence starting..."
  ++ Config.stdout (new None (fresh (fs (logging s)) (home s))).2
  ++ record 1 ("Configuration loaded: " +:+ json_dumps doc)
  ++ ["Kick Presence - Python desktop app for Kick monitoring";
      "This is a placeholder. Full implementation coming soon."]
  ++ record 2 "Kick Presence initialized successfully".
Proof.
intros Hvalid.
destruct (main_run name s Hvalid) as (l1 & _ & _ & _ & ->). cbv zeta.
destruct (new None (fresh (fs (logging s)) (home s))) as [r c2] eqn:Hnew.
cbn [fst snd]. destruct r as [[]|e]; [|done].
destruct (new_ok_has_document json_dumps json_loads _ _ Hnew) as [doc Hdoc].
intros [= <-]. exists doc. split; [done|]. simpl. rewrite Hdoc.
by rewrite <-!app_assoc.
Qed.
End ProgramFacts.

Section ProgramScenarios.
Import Logging Main.

Local Abbreviation main := (Main.main plain_render has_field RefJson.dumps RefJson.loads).
Local Abbreviation new := (Config.new RefJson.dumps RefJson.loads).

(** The application directory cannot be made: a file has its name. *)
Lemma main_fails_only_in_construction_witness :
let disk := disk_of [("/home/u/.kick_presence", "notes")] ["/home/u"] in
let s := program (process [] 0 disk ∅) "/home/u" 0 in
(main "kick_presence.main" s).1 = (new None (fresh disk "/home/u")).1 /\
fs (logging (main "kick_presence.main" s).2)
= Config.fs (new None (fresh disk "/home/u")).2.
Proof.
intros disk s.
apply (main_fails_only_in_construction plain_render has_field
       RefJson.dumps RefJson.loads "kick_presence.main" s).
reflexivity.
Defined.

Example main_raises_the_error_of_mkdir :
let disk := disk_of [("/home/u/.kick_presence", "notes")] ["/home/u"] in
let s := program (process [] 0 disk ∅) "/home/u" 0 in
(main "kick_presence.main" s).1
= Raise (OSError "[Errno 17] File exists: '/home/u/.kick_presence'") /\
stdout (logging (main "kick_presence.main" s).2)
= ["kick_presence.main - INFO - Kick Presence starting..."].
Proof. vm_compute. by split. Qed.

(** A configuration that asks for a log file at [DEBUG]. *)
Lemma main_logs_to_console_only_witness :
let asked :=
VDict [("logging", VDict [("level", VStr "DEBUG"); ("file", VStr "/tmp/kick.log")])] in
let disk := disk_of [("/home/u/.kick_presence/config.json", RefJson.dumps asked)]
            ["/home/u"; "/home/u/.kick_presence"] in
let s := program (process [] 0 disk ∅) "/home/u" 0 in
sink_config (logging (main "kick_presence.main" s).2)
= [(Console, level_number None (environ (logging s)), Some default_format)] /\
root_level (logging (main "kick_presence.main" s).2)
= level_number None (environ (logging s)).
Proof.
intros asked disk s.
apply (main_logs_to_console_only plain_render has_field
       RefJson.dumps RefJson.loads "kick_presence.main" s).
reflexivity.
Defined.

(** A first run at the level [WARNING]: the banner and nothing else. *)
Lemma main_console_output_witness :
let env : gmap string string := {["KICK_PRESENCE_LOG_LEVEL" := "warning"]} in
let disk := disk_of [] ["/home/u"] in
let s := program (process [] 0 disk env) "/home/u" 0 in
let s' := (main "kick_presence.main" s).2 in
let record := fun (k : nat) msg =>
if info_shown "kick_presence.main" (logging s)
then [plain_render default_format "kick_presence.main" "INFO" msg (k + clock s)]
else [] in
exists doc,
Config.config_data (config s') = Some doc /\
stdout (logging s') =
  stdout (logging s)
  ++ level_diagnostic None (environ (logging s))
  ++ record 0 "Kick Presence starting..."
  ++ Config.stdout (new None (fresh (fs (logging s)) (home s))).2
  ++ record 1 ("Configuration loaded: " +:+ RefJson.dumps doc)
  ++ ["Kick Presence - Python desktop app for Kick monitoring";
      "This is a placeholder. Full implementation coming soon."]
  ++ record 2 "Kick Presence initialized successfully".
Proof.
intros env disk s s'.
apply (main_console_output plain_render has_field RefJson.dumps RefJson.loads
       "kick_presence.main" s s').
- reflexivity.
- vm_compute. reflexivity.
Defined.

Example main_is_silent_at_warning :
let env : gmap string string := {["KICK_PRESENCE_LOG_LEVEL" := "warning"]} in
let s := program (process [] 0 (disk_of [] ["/home/u"]) env) "/home/u" 0 in
(main "kick_presence.main" s).1 = Ok tt /\
stdout (logging (main "kick_presence.main" s).2)
= ["Kick Presence - Python desktop app for Kick monitoring";
 "This is a placeholder. Full implementation coming soon."] /\
is_Some (files (fs (logging (main "kick_presence.main" s).2))
         !! "/home/u/.kick_presence/config.json").
Proof. vm_compute. split_and!; [done | done | by eexists]. Qed.
End ProgramScenarios.

(** ** The first run *)

Section FirstRun.
Import Config.
Variable json_dumps : value -> string.
Variable json_loads : string -> option value.
Implicit Types (s : state) (p : string).

Local Abbreviation new := (Config.new json_dumps json_loads).

Lemma path_join_longer a b :
b <> "" -> String.length a < String.length (path_join a b).
Proof.
intros Hb. unfold path_join. destruct (String.eqb a "/").
- rewrite length_append. destruct b; [done|]. simpl. lia.
- rewrite !length_append. simpl. lia.
Qed.

(** X19.  The first run.  When neither the application directory nor the
  configuration file exists and both can be created, [Config()] makes
  the directory [.kick_presence] under the home directory, writes
  [config.json] in it with the default schema, holds the defaults, and
  prints nothing; nothing else on disk changes. *)
Theorem first_run_creates_directory_and_file s :
let dir := path_join (home s) ".kick_presence" in
let p := path_join dir "config.json" in
path_exists dir (fs s) = false ->
dir ∉ unwritable (fs s) ->
path_exists p (fs s) = false ->
p ∉ unwritable (fs s) ->
exists s',
  new None s = (Ok tt, s') /\
  config_path (self s') = Some p /\
  config_data (self s') = Some (VDict default_config) /\
  dirs (fs s') = {[dir]} ∪ dirs (fs s) /\
  files (fs s') = <[p := json_dumps (VDict default_config)]> (files (fs s)) /\
  stdout s' = stdout s.
Proof.
intros dir p Hdir Hdw Hp Hpw.
apply path_exists_false in Hdir as [Hdf Hdd].
apply path_exists_false in Hp as [Hpf Hpd].
assert (p <> dir) as Hne.
{ intros Heq. pose proof (path_join_longer dir "config.json" ltac:(done)) as Hlen.
  fold p in Hlen. rewrite Heq in Hlen. lia. }
rewrite (new_default_run json_dumps json_loads). fold dir.
assert (mkdir_exist_ok dir (fs s) = Ok (with_dirs ({[dir]} ∪ dirs (fs s)) (fs s)))
  as ->.
{ unfold mkdir_exist_ok.
  rewrite (bool_decide_eq_false_2 _ Hdd), (bool_decide_eq_false_2 _ Hdw).
  rewrite bool_decide_eq_false_2; [done|]. rewrite Hdf. by intros [? ?]. }
fold p.
rewrite (new_run json_dumps json_loads _ p
           (path_join_nonempty dir "config.json" ltac:(done))).
cbn [fs with_fs].
assert (p ∉ {[dir]} ∪ dirs (fs s)) as Hnd.
{ by rewrite not_elem_of_union, not_elem_of_singleton. }
assert (path_exists p (with_dirs ({[dir]} ∪ dirs (fs s)) (fs s)) = false) as ->.
{ by apply path_exists_false. }
rewrite write_text_ok by done.
eexists. split; [reflexivity|]. by split_and!.
Qed.
End FirstRun.

Section FirstRunScenario.
Import Config.

Lemma first_run_creates_directory_and_file_witness :
let s := fresh (disk_of [] ["/home/u"]) "/home/u" in
exists s',
  Config.new RefJson.dumps RefJson.loads None s = (Ok tt, s') /\
  config_path (self s') = Some "/home/u/.kick_presence/config.json" /\
  config_data (self s') = Some (VDict default_config) /\
  dirs (fs s') = {["/home/u/.kick_presence"]} ∪ dirs (fs s) /\
  files (fs s') =
    <["/home/u/.kick_presence/config.json" := RefJson.dumps (VDict default_config)]>
      (files (fs s)) /\
  stdout s' = stdout s.
Proof.
intros s.
apply (first_run_creates_directory_and_file RefJson.dumps RefJson.loads s).
- vm_compute. reflexivity.
- apply not_elem_of_empty.
- vm_compute. reflexivity.
- apply not_elem_of_empty.
Defined.
End FirstRunScenario.

